(** * Equality helpers and memoization hooks of [@lib]

    A shallow embedding of
    - [src/packages/assignment/src/@lib/equalities/deepEquals.ts] ([deepEquals]),
    - [src/packages/assignment/src/@lib/hooks/useMemo.ts] ([useMemo],
      [useCallback], [useDeepMemo], [shallowEquals]),
    together with the properties the specification states about them.

    JavaScript values are modelled over an explicit heap: primitives are
    immediate, arrays, plain objects and functions live in the heap and are
    denoted by their location, so that [===] on them is identity of
    locations and two literals with the same content are different values. *)

From Stdlib Require Import List String ZArith Bool Arith Lia.
From Stdlib Require Import DecimalString DecimalNat Permutation FinFun.
Import ListNotations.
Local Open Scope string_scope.
Local Open Scope nat_scope.

(** ** Values and heap *)

Definition loc := nat.

(** A JavaScript number, as far as [===] can tell numbers apart: [NaN] is the
    one number that is not equal to itself, every other number is equal
    exactly to itself (the numerals of the model are the integers). *)
Inductive number : Type :=
| NaN
| Num (z : Z).

Inductive value : Type :=
| VUndefined
| VNull
| VBool (b : bool)
| VNumber (n : number)
| VString (s : string)
| VRef (l : loc).

(** The body of a function object: a function of the environment, named by an
    index, or the arrow function [(...args) => target(...args)] closed over
    [target]. *)
Inductive closure : Type :=
| Native (id : nat)
| Forward (target : value).

(** A heap object. [OObj] lists the own enumerable string-keyed properties in
    the order [Object.keys] reports them. [OArr] is a dense array: an element
    at every index below its length, and no other property of its own. *)
Inductive obj : Type :=
| OArr (elems : list value)
| OObj (props : list (string * value))
| OFun (c : closure).

Definition heap := list obj.

(** Locations come from allocation, so a program never holds one outside the
    heap; reading such a location yields an empty object, which keeps the
    operations total. *)
Definition deref (h : heap) (l : loc) : obj := nth l h (OObj []).

(** ** Outcomes

    A call either returns or throws; [None] stands for a recursion that was
    cut off by the fuel bound and has produced nothing yet. *)

Inductive exn : Type :=
| TypeError.

Inductive outcome (A : Type) : Type :=
| Ret (a : A)
| Throw (e : exn).
Arguments Ret {A} a.
Arguments Throw {A} e.

Definition eval (A : Type) : Type := option (outcome A).

Definition ret {A} (a : A) : eval A := Some (Ret a).

Definition lift {A} (o : outcome A) : eval A := Some o.

Definition bind {A B} (m : eval A) (k : A -> eval B) : eval B :=
  match m with
  | None => None
  | Some (Throw e) => Some (Throw e)
  | Some (Ret a) => k a
  end.

Declare Scope eval_scope.
Delimit Scope eval_scope with eval.
Notation "x <- m ;; k" := (bind m (fun x => k))
  (at level 61, m at next level, right associativity) : eval_scope.
Local Open Scope eval_scope.

(** ** Primitive operations of the language *)

(** [a === b]. *)
Definition number_eqb (a b : number) : bool :=
  match a, b with
  | Num x, Num y => Z.eqb x y
  | _, _ => false
  end.

Definition strict_eq (a b : value) : bool :=
  match a, b with
  | VUndefined, VUndefined => true
  | VNull, VNull => true
  | VBool x, VBool y => Bool.eqb x y
  | VNumber x, VNumber y => number_eqb x y
  | VString x, VString y => String.eqb x y
  | VRef x, VRef y => Nat.eqb x y
  | _, _ => false
  end.

(** [typeof v]. *)
Inductive type_tag : Type :=
| TUndefined | TObject | TBoolean | TNumber | TString | TFunction.

Definition typeof (h : heap) (v : value) : type_tag :=
  match v with
  | VUndefined => TUndefined
  | VNull => TObject
  | VBool _ => TBoolean
  | VNumber _ => TNumber
  | VString _ => TString
  | VRef l => match deref h l with
              | OFun _ => TFunction
              | _ => TObject
              end
  end.

Definition type_tag_eqb (s t : type_tag) : bool :=
  match s, t with
  | TUndefined, TUndefined | TObject, TObject | TBoolean, TBoolean
  | TNumber, TNumber | TString, TString | TFunction, TFunction => true
  | _, _ => false
  end.

(** [Array.isArray(v)]. *)
Definition isArray (h : heap) (v : value) : bool :=
  match v with
  | VRef l => match deref h l with
              | OArr _ => true
              | _ => false
              end
  | _ => false
  end.

(** The property name of an array index: its decimal numeral. *)
Definition index_key (i : nat) : string :=
  NilEmpty.string_of_uint (Nat.to_uint i).

Definition index_keys (n : nat) : list string := map index_key (seq 0 n).

(** [Object.keys(v)]: throws on [null] and [undefined]. *)
Definition object_keys (h : heap) (v : value) : outcome (list string) :=
  match v with
  | VUndefined | VNull => Throw TypeError
  | VBool _ | VNumber _ => Ret []
  | VString s => Ret (index_keys (String.length s))
  | VRef l => match deref h l with
              | OArr xs => Ret (index_keys (List.length xs))
              | OObj ps => Ret (map fst ps)
              | OFun _ => Ret []
              end
  end.

Fixpoint assoc (ps : list (string * value)) (k : string) : value :=
  match ps with
  | [] => VUndefined
  | (k', v) :: ps' => if String.eqb k' k then v else assoc ps' k
  end.

(** The element of [xs] whose index is written [k], counting from [i]. *)
Fixpoint array_lookup (i : nat) (xs : list value) (k : string) : value :=
  match xs with
  | [] => VUndefined
  | x :: xs' => if String.eqb (index_key i) k then x
                else array_lookup (S i) xs' k
  end.

(** [o[k]] on a heap object, own properties only: a missing key reads
    [undefined]; an array answers its indices and ["length"]. Properties
    inherited from [Object.prototype] or [Array.prototype] are not modelled:
    a statement that reads a key the object may lack says so, or keeps the
    key away from the inherited names ([Object_prototype_names]). *)
Definition get_prop (o : obj) (k : string) : value :=
  match o with
  | OObj ps => assoc ps k
  | OArr xs => if String.eqb k "length"
               then VNumber (Num (Z.of_nat (List.length xs)))
               else array_lookup 0 xs k
  | OFun _ => VUndefined
  end.

(** [v[k]]: throws on [null] and [undefined]. The equality functions only
    read properties of values whose [typeof] is ["object"]. *)
Definition get (h : heap) (v : value) (k : string) : outcome value :=
  match v with
  | VUndefined | VNull => Throw TypeError
  | VRef l => Ret (get_prop (deref h l) k)
  | _ => Ret VUndefined
  end.

(** [v.length] and [v[i]] of an array value. *)
Definition array_elems (h : heap) (v : value) : list value :=
  match v with
  | VRef l => match deref h l with
              | OArr xs => xs
              | _ => []
              end
  | _ => []
  end.

Definition array_length (h : heap) (v : value) : nat :=
  List.length (array_elems h v).

Definition index (h : heap) (v : value) (i : nat) : value :=
  nth i (array_elems h v) VUndefined.

(** A [for] loop whose body returns [false] from the function as soon as a
    test fails, and which is followed by [return true]. *)
Fixpoint all_ok {A} (test : A -> eval bool) (xs : list A) : eval bool :=
  match xs with
  | [] => ret true
  | x :: xs' => r <- test x ;; if r then all_ok test xs' else ret false
  end.

(** ** [shallowEquals] (useMemo.ts, lines 37-62) *)

(** Lines 53-61: the loop over [Object.keys(objA)] and the final
    [return true]. *)
Fixpoint shallow_loop (h : heap) (objA objB : value) (ks : list string)
  : outcome bool :=
  match ks with
  | [] => Ret true
  | key :: ks' =>
    match get h objA key with
    | Throw e => Throw e
    | Ret va =>
      match get h objB key with
      | Throw e => Throw e
      | Ret vb => if negb (strict_eq va vb) then Ret false
                  else shallow_loop h objA objB ks'
      end
    end
  end.

Definition shallowEquals (h : heap) (objA objB : value) : outcome bool :=
  if strict_eq objA objB then Ret true
  else if negb (type_tag_eqb (typeof h objA) TObject)
          || negb (type_tag_eqb (typeof h objB) TObject) then Ret false
  else
    match object_keys h objA with
    | Throw e => Throw e
    | Ret keysA =>
      match object_keys h objB with
      | Throw e => Throw e
      | Ret keysB =>
        if negb (List.length keysA =? List.length keysB) then Ret false
        else shallow_loop h objA objB keysA
      end
    end.

(** ** [deepEquals] (deepEquals.ts, lines 2-45)

    The recursion follows the heap, which may be cyclic, so it is bounded by
    [fuel]; [None] means the bound was reached. *)

Fixpoint deepEquals (fuel : nat) (h : heap) (objA objB : value) : eval bool :=
  match fuel with
  | O => None
  | S n =>
    if strict_eq objA objB then ret true
    else if strict_eq objA VNull && strict_eq objB VNull then ret true
    else if isArray h objA && isArray h objB then
      if negb (array_length h objA =? array_length h objB) then ret false
      else all_ok (fun i => deepEquals n h (index h objA i) (index h objB i))
                  (seq 0 (array_length h objA))
    else if type_tag_eqb (typeof h objA) TObject
            && type_tag_eqb (typeof h objB) TObject then
      keysA <- lift (object_keys h objA) ;;
      keysB <- lift (object_keys h objB) ;;
      if negb (List.length keysA =? List.length keysB) then ret false
      else all_ok (fun key => va <- lift (get h objA key) ;;
                              vb <- lift (get h objB key) ;;
                              deepEquals n h va vb)
                  keysA
    else ret false
  end.

(** [deepEquals(a, b)] returns [r]: some bound on the recursion is enough. *)
Definition deepEquals_returns (h : heap) (a b : value) (r : bool) : Prop :=
  exists fuel, deepEquals fuel h a b = Some (Ret r).

(** [deepEquals(a, b)] throws. *)
Definition deepEquals_throws (h : heap) (a b : value) (e : exn) : Prop :=
  exists fuel, deepEquals fuel h a b = Some (Throw e).

(** ** Acyclic data

    [depth_le d h v]: following references from [v] one reaches primitives
    after at most [d] steps, whichever path is taken. A value with such a
    bound is finite and contains no cycle. *)

Definition children (o : obj) : list value :=
  match o with
  | OArr xs => xs
  | OObj ps => map snd ps
  | OFun _ => []
  end.

Fixpoint depth_le (d : nat) (h : heap) (v : value) : bool :=
  match v with
  | VRef l => match d with
              | O => false
              | S d' => forallb (depth_le d' h) (children (deref h l))
              end
  | _ => true
  end.

Definition acyclic (h : heap) (v : value) : Prop :=
  exists d, depth_le d h v = true.

(** [null_free d h v]: [null] is neither [v] nor found within [d] steps
    from [v]. *)
Fixpoint null_free (d : nat) (h : heap) (v : value) : bool :=
  match v with
  | VNull => false
  | VRef l => match d with
              | O => true
              | S d' => forallb (null_free d' h) (children (deref h l))
              end
  | _ => true
  end.

(** ** Program state and function calls

    The state a hook runs in: the heap and, for observing side effects, the
    log of the environment functions invoked so far (most recent first). *)

Record world : Type := mkWorld { w_heap : heap; w_log : list nat }.

(** What the functions of the environment do when called. *)
Definition natives : Type := nat -> list value -> world -> outcome value * world.

Definition log_call (id : nat) (w : world) : world :=
  {| w_heap := w_heap w; w_log := id :: w_log w |}.

(** How many times the environment function [id] has been invoked. *)
Definition invocations (id : nat) (w : world) : nat :=
  count_occ Nat.eq_dec (w_log w) id.

(** [f(...args)]. An arrow function [(...args) => target(...args)] calls its
    target with the same arguments and returns what the target returns; the
    chain of targets is followed up to [fuel]. *)
Fixpoint call (N : natives) (fuel : nat) (f : value) (args : list value)
         (w : world) : option (outcome value * world) :=
  match fuel with
  | O => None
  | S n =>
    match f with
    | VRef l =>
      match deref (w_heap w) l with
      | OFun (Native id) => Some (N id args (log_call id w))
      | OFun (Forward target) => call N n target args w
      | _ => Some (Throw TypeError, w)
      end
    | _ => Some (Throw TypeError, w)
    end
  end.

Definition call_result (N : natives) (f : value) (args : list value)
           (w : world) (r : outcome value * world) : Prop :=
  exists fuel, call N fuel f args w = Some r.

(** Evaluating a function expression creates a new function object. *)
Definition alloc (o : obj) (w : world) : value * world :=
  (VRef (List.length (w_heap w)),
   {| w_heap := (w_heap w ++ [o])%list; w_log := w_log w |}).

(** ** The hooks (useMemo.ts) *)

(** The type of the [equals] parameter. *)
Definition comparator : Type := nat -> heap -> value -> value -> eval bool.

Definition shallowEquals_cmp : comparator :=
  fun _ h a b => lift (shallowEquals h a b).

(** [useMemo] (lines 7-10): [return factory();]. *)
Definition useMemo (N : natives) (factory : value) (deps : list value)
           (equals : comparator) (fuel : nat) (w : world)
  : option (outcome value * world) :=
  call N fuel factory [] w.

(** [useMemo(factory, deps)], with the default [equals = shallowEquals]. *)
Definition useMemo_default (N : natives) (factory : value) (deps : list value)
  : nat -> world -> option (outcome value * world) :=
  useMemo N factory deps shallowEquals_cmp.

(** [useCallback] (lines 16-19): [return (...args) => factory(...args);]. *)
Definition useCallback (factory : value) (deps : list value) (w : world)
  : value * world :=
  alloc (OFun (Forward factory)) w.

(** [useDeepMemo] (lines 27-30): [return useMemo(factory, deps, deepEquals);]. *)
Definition useDeepMemo (N : natives) (factory : value) (deps : list value)
  : nat -> world -> option (outcome value * world) :=
  useMemo N factory deps deepEquals.

(** ** Scenarios of the specification *)

(** A factory that counts its calls: it returns how many times it has been
    invoked, this call included. *)
Definition counting : natives :=
  fun id _ w => (Ret (VNumber (Num (Z.of_nat (invocations id w)))), w).

Definition num (z : Z) : value := VNumber (Num z).

(** [{a: 1}] at locations 0 and 1. *)
Definition flat_heap : heap :=
  [OObj [("a", num 1)]; OObj [("a", num 1)]].

(** [{b: 1}] at locations 0 and 1, [{a: {b: 1}}] at locations 2 and 3, each
    with a nested object of its own. *)
Definition nested_heap : heap :=
  [OObj [("b", num 1)]; OObj [("b", num 1)];
   OObj [("a", VRef 0)]; OObj [("a", VRef 1)]].

(** [{a: [1, {b: 2}]}] at locations 2 and 5, and [{a: [1, {b: 3}]}] at
    location 8, each built from parts of its own. *)
Definition deep_heap : heap :=
  [OObj [("b", num 2)]; OArr [num 1; VRef 0]; OObj [("a", VRef 1)];
   OObj [("b", num 2)]; OArr [num 1; VRef 3]; OObj [("a", VRef 4)];
   OObj [("b", num 3)]; OArr [num 1; VRef 6]; OObj [("a", VRef 7)]].

(** [[1, 2, 3]] at location 0 and [[1, 2]] at location 1. *)
Definition arrays_heap : heap :=
  [OArr [num 1; num 2; num 3]; OArr [num 1; num 2]].

(** [[NaN]] at location 0. *)
Definition nan_heap : heap := [OArr [VNumber NaN]].

(** [{x: undefined}] at location 0 and [{y: 1}] at location 1. *)
Definition missing_key_heap : heap :=
  [OObj [("x", VUndefined)]; OObj [("y", num 1)]].

(** [[]] at location 0 and [{}] at location 1. *)
Definition empty_heap : heap := [OArr []; OObj []].

(** [[1]] at location 0 and [{0: 1}] at location 1. *)
Definition mixed_heap : heap := [OArr [num 1]; OObj [("0", num 1)]].

(** The factory at location 0, and [{a: 1}] at locations 1 and 2; nothing
    has been called yet. *)
Definition memo_world : world :=
  {| w_heap := [OFun (Native 0); OObj [("a", num 1)]; OObj [("a", num 1)]];
     w_log := [] |}.

(** ** Statements about pairs of heap objects *)

(** What C9 states of the arrays at [la] and [lb]. *)
Definition arrays_claim (h : heap) (la lb : loc) : Prop :=
  forall xs ys, deref h la = OArr xs -> deref h lb = OArr ys ->
    (List.length xs <> List.length ys ->
     forall n, deepEquals (S n) h (VRef la) (VRef lb) = Some (Ret false)) /\
    (List.length xs = List.length ys ->
     (deepEquals_returns h (VRef la) (VRef lb) true <->
      forall i, i < List.length xs ->
                deepEquals_returns h (nth i xs VUndefined)
                                     (nth i ys VUndefined) true)).

(** What C3 states of the plain objects at [la] and [lb]: a key of the first
    has to exist in the second. *)
Definition objects_claim (h : heap) (la lb : loc) : Prop :=
  forall pa pb, deref h la = OObj pa -> deref h lb = OObj pb ->
    (List.length pa <> List.length pb ->
     forall n, deepEquals (S n) h (VRef la) (VRef lb) = Some (Ret false)) /\
    (List.length pa = List.length pb ->
     (deepEquals_returns h (VRef la) (VRef lb) true <->
      forall k, In k (map fst pa) ->
                In k (map fst pb) /\
                deepEquals_returns h (assoc pa k) (assoc pb k) true)).


(** ** The example applications (packages/example)

    The state the sample applications keep and the functions that update it.
    A call [setX(prev => e)] replaces the state [X] by the value of [e], so
    an updater is modelled as the function from [prev] to [e]. Numbers are
    those of [number], with the addition of the integers and [NaN]
    absorbing: this is the addition of the language on whole numbers up to
    2^53 in size, the range [safe_likes] keeps sums in. [Date.now()] is the
    reading [now] of the clock. *)

Definition number_add (a b : number) : number :=
  match a, b with
  | Num x, Num y => Num (x + y)
  | _, _ => NaN
  end.

(** [type Theme = 'light' | 'dark']. *)
Inductive Theme : Type :=
| light
| dark.

Definition Theme_eqb (s t : Theme) : bool :=
  match s, t with
  | light, light | dark, dark => true
  | _, _ => false
  end.

(** [type NewsCategory = '정치' | '경제' | '사회' | '문화']. *)
Inductive NewsCategory : Type :=
| Politics
| Economy
| Society
| Culture.

Definition category_label (c : NewsCategory) : string :=
  match c with
  | Politics => "정치"
  | Economy => "경제"
  | Society => "사회"
  | Culture => "문화"
  end.

Definition NewsCategory_eqb (c d : NewsCategory) : bool :=
  match c, d with
  | Politics, Politics | Economy, Economy
  | Society, Society | Culture, Culture => true
  | _, _ => false
  end.

Definition NEWS_CATEGORIES : list NewsCategory :=
  [Politics; Economy; Society; Culture].

Module NewsItem.
Record t : Type := mk {
  id : number;
  title : string;
  category : NewsCategory;
  likes : number;
  content : string
}.
End NewsItem.

(** [Omit<NewsItem, 'id' | 'likes'>]. *)
Module NewNews.
Record t : Type := mk {
  title : string;
  content : string;
  category : NewsCategory
}.
End NewNews.

Module Notification.
Record t : Type := mk {
  id : number;
  message : string
}.
End Notification.

(** [Array.from({ length }, f)]: the array of [f(_, 0)], ..., up to
    [length - 1]. A negative [length] counts as 0, and a [length] of 2^32 or
    more is no array length: creating the array throws a [RangeError]. *)
Inductive array_result (A : Type) : Type :=
| Created (a : A)
| RangeError.
Arguments Created {A} a.
Arguments RangeError {A}.

Definition Array_from {A} (length : Z) (f : nat -> A) : array_result (list A) :=
  if (length <? 2 ^ 32)%Z
  then Created (map f (seq 0 (Z.to_nat length)))
  else RangeError.

(** [generateNewsData] (common-sample/origin/App.tsx, lines 15-23). The two
    random fields are whatever the random source yields for each index:
    [random_category index] for the head of the shuffled categories and
    [random_likes index] for [Math.floor(Math.random() * 100)], a value
    from 0 to 99. *)
Definition generateNewsData (random_category : nat -> NewsCategory)
           (random_likes : nat -> Z) (count : Z)
  : array_result (list NewsItem.t) :=
  Array_from count
    (fun index =>
       {| NewsItem.id := Num (Z.of_nat index + 1);
          NewsItem.title := "뉴스 제목 " ++ index_key (index + 1);
          NewsItem.category := random_category index;
          NewsItem.likes := Num (random_likes index);
          NewsItem.content :=
            "이것은 뉴스 " ++ index_key (index + 1)
            ++ "의 내용입니다. 실제 내용은 더 길 것입니다." |}).

(** [filteredNews] (common-sample/origin/App.tsx, lines 109-111;
    context-sample/origin/App.tsx, line 190; context-sample/refactor/App.tsx,
    lines 92-95): [null] is falsy, every category is a non-empty string. *)
Definition filteredNews (news : list NewsItem.t)
           (category : option NewsCategory) : list NewsItem.t :=
  match category with
  | Some c =>
    filter (fun item => NewsCategory_eqb (NewsItem.category item) c) news
  | None => news
  end.

(** [totalLikes] (common-sample/origin/App.tsx, line 113). *)
Definition totalLikes (news : list NewsItem.t) : number :=
  fold_left (fun sum item => number_add sum (NewsItem.likes item))
            news (Num 0).

(** [likeNews] (context-sample/origin/App.tsx, lines 68-72; refactor, lines
    86-90) and [likeFeed] (common-sample/origin/App.tsx, lines 119-123): the
    next value of [news]. *)
Definition likeNews (id : number) (prev : list NewsItem.t)
  : list NewsItem.t :=
  map (fun item =>
         if number_eqb (NewsItem.id item) id
         then {| NewsItem.id := NewsItem.id item;
                 NewsItem.title := NewsItem.title item;
                 NewsItem.category := NewsItem.category item;
                 NewsItem.likes := number_add (NewsItem.likes item) (Num 1);
                 NewsItem.content := NewsItem.content item |}
         else item)
      prev.

Definition likeFeed (id : number) (news : list NewsItem.t)
  : list NewsItem.t :=
  likeNews id news.

(** [addNews] (context-sample/origin/App.tsx, lines 64-66; refactor, lines
    82-84). *)
Definition addNews (newNews : NewNews.t) (now : Z) (prev : list NewsItem.t)
  : list NewsItem.t :=
  (prev ++ [ {| NewsItem.id := Num now;
                NewsItem.title := NewNews.title newNews;
                NewsItem.category := NewNews.category newNews;
                NewsItem.likes := Num 0;
                NewsItem.content := NewNews.content newNews |} ])%list.

(** [toggleTheme] (context-sample/origin/App.tsx, lines 52-54; refactor,
    lines 59-61). *)
Definition toggleTheme (prev : Theme) : Theme :=
  if Theme_eqb prev light then dark else light.

(** [addNotification] (context-sample/origin/App.tsx, lines 74-76; refactor,
    lines 107-109). *)
Definition addNotification (message : string) (now : Z)
           (prev : list Notification.t) : list Notification.t :=
  (prev ++ [ {| Notification.id := Num now;
                Notification.message := message |} ])%list.

(** [removeNotification] (context-sample/origin/App.tsx, lines 78-80;
    refactor, lines 111-113). *)
Definition removeNotification (id : number) (prev : list Notification.t)
  : list Notification.t :=
  filter (fun notif => negb (number_eqb (Notification.id notif) id)) prev.

(** [Sidebar] (common-sample/origin/App.tsx, lines 57-79), as the list of
    its buttons: whether each is drawn selected and what it shows. *)
Record SidebarEntry : Type := mkSidebarEntry {
  selected : bool;
  label : string
}.

Definition option_category_eqb (a b : option NewsCategory) : bool :=
  match a, b with
  | None, None => true
  | Some c, Some d => NewsCategory_eqb c d
  | _, _ => false
  end.

Definition Sidebar (items : list (option NewsCategory))
           (value : option NewsCategory) : list SidebarEntry :=
  map (fun item =>
         {| selected := option_category_eqb value item;
            label := match item with
                     | Some c => category_label c
                     | None => "전체"
                     end |})
      items.

(** The items [App] passes (line 130): [[null, ...NEWS_CATEGORIES]]. *)
Definition sidebar_items : list (option NewsCategory) :=
  None :: map Some NEWS_CATEGORIES.

(** The like counts are whole numbers from 0 on whose sum, with [extra]
    added, does not exceed 2^53: sums of such numbers are exact in the
    arithmetic of the language, as they are in [number_add]. *)
Definition likes_value (n : number) : Z :=
  match n with
  | Num z => z
  | NaN => 0%Z
  end.

Definition sum_likes (news : list NewsItem.t) : Z :=
  fold_right (fun item s => (likes_value (NewsItem.likes item) + s)%Z)
             0%Z news.

Definition safe_likes (news : list NewsItem.t) (extra : Z) : Prop :=
  (forall item, In item news ->
                exists z, NewsItem.likes item = Num z /\ (0 <= z)%Z) /\
  (sum_likes news + extra <= 2 ^ 53)%Z.

(** How many items of [news] carry the identifier [id]. *)
Definition count_id (id : number) (news : list NewsItem.t) : nat :=
  List.length (filter (fun item => number_eqb (NewsItem.id item) id) news).

(** ** Well-formed objects, for the symmetry of the comparisons *)

(** No property of the object reads [undefined], no key occurs twice, and
    no plain object has a key ["length"]. *)
Definition defined_value (v : value) : bool :=
  match v with
  | VUndefined => false
  | _ => true
  end.

(** The names every object inherits from [Object.prototype]: reading one
    of them on an object that has no such key of its own yields the
    inherited value, not [undefined]. *)
Definition Object_prototype_names : list string :=
  ["constructor"; "__defineGetter__"; "__defineSetter__"; "hasOwnProperty";
   "__lookupGetter__"; "__lookupSetter__"; "isPrototypeOf";
   "propertyIsEnumerable"; "toString"; "valueOf"; "__proto__";
   "toLocaleString"].

(** The keys of a plain object are its own in every object: none of them
    names an inherited property. *)
Definition own_names (ps : list (string * value)) : Prop :=
  forall k, In k (map fst ps) -> ~ In k Object_prototype_names.

(** A tidy object: a plain object whose keys are distinct, none of them
    the name of an inherited property, and whose properties are not
    [undefined]; or a function. Arrays are not tidy. *)
Definition tidy_obj (o : obj) : Prop :=
  match o with
  | OArr xs => False
  | OObj ps => NoDup (map fst ps)
               /\ own_names ps
               /\ forall k, In k (map fst ps) -> defined_value (assoc ps k) = true
  | OFun _ => True
  end.

Definition tidy_heap (h : heap) : Prop := forall l, tidy_obj (deref h l).

(** The keys [Object.keys] reports for a heap object. *)
Definition own_keys (o : obj) : list string :=
  match o with
  | OArr xs => index_keys (List.length xs)
  | OObj ps => map fst ps
  | OFun _ => []
  end.

(** A value of the heap [h]: a primitive, or a location [h] has allocated;
    in a closed heap every object holds such values only. *)
Definition closed_value (h : heap) (v : value) : bool :=
  match v with
  | VRef l => l <? List.length h
  | _ => true
  end.

Definition closed_heap (h : heap) : Prop :=
  forall l, forallb (closed_value h) (children (deref h l)) = true.

(** [{p: {q: 1}}] at locations 1 and 3, each with a nested object of its
    own. *)
Definition plain_heap : heap :=
  [OObj [("q", num 1)]; OObj [("p", VRef 0)];
   OObj [("q", num 1)]; OObj [("p", VRef 2)]].

(** Two arrays [[a]] and [[b]] that contain themselves. *)
Definition cyclic_heap : heap := [OArr [VRef 0]; OArr [VRef 1]].

(** * Properties *)

(** ** The strict equality *)

Lemma number_eqb_eq (a b : number) : number_eqb a b = true -> a = b.
Proof.
  destruct a, b; simpl; try discriminate.
  intros H. apply Z.eqb_eq in H. now subst.
Qed.

Lemma strict_eq_eq (a b : value) : strict_eq a b = true -> a = b.
Proof.
  destruct a, b; simpl; try discriminate; try reflexivity; intros H.
  - apply Bool.eqb_prop in H. now subst.
  - apply number_eqb_eq in H. now subst.
  - apply String.eqb_eq in H. now subst.
  - apply Nat.eqb_eq in H. now subst.
Qed.

Lemma strict_eq_refl (v : value) : v <> VNumber NaN -> strict_eq v v = true.
Proof.
  destruct v; simpl; intros H; try reflexivity.
  - apply Bool.eqb_reflx.
  - destruct n; [congruence | apply Z.eqb_refl].
  - apply String.eqb_refl.
  - apply Nat.eqb_refl.
Qed.

Lemma strict_eq_NaN (v : value) : strict_eq (VNumber NaN) v = false.
Proof. now destruct v. Qed.

Lemma strict_eq_refs (x y : loc) : x <> y -> strict_eq (VRef x) (VRef y) = false.
Proof. intros H. simpl. now apply Nat.eqb_neq. Qed.

(** ** Arrays read by key

    An array answers the decimal numeral of an index with the element at
    that index, so the loops over [Object.keys] see an array as the object
    [{0: x0, 1: x1, ...}]. *)

Lemma index_key_inj (i j : nat) : index_key i = index_key j -> i = j.
Proof.
  unfold index_key. intros H.
  apply Unsigned.to_uint_inj.
  apply (f_equal NilEmpty.uint_of_string) in H.
  rewrite !NilEmpty.usu in H. congruence.
Qed.

Lemma index_key_not_length (i : nat) : String.eqb (index_key i) "length" = false.
Proof.
  apply String.eqb_neq. unfold index_key. intros H.
  apply (f_equal NilEmpty.uint_of_string) in H.
  rewrite NilEmpty.usu in H. discriminate H.
Qed.

Lemma array_lookup_nth (xs : list value) :
  forall i j, j < List.length xs ->
              array_lookup i xs (index_key (i + j)) = nth j xs VUndefined.
Proof.
  induction xs as [|x xs IH]; simpl; intros i j Hj; [lia|].
  destruct j as [|j].
  - now rewrite Nat.add_0_r, String.eqb_refl.
  - destruct (String.eqb (index_key i) (index_key (i + S j))) eqn:E.
    + apply String.eqb_eq, index_key_inj in E. lia.
    + rewrite <- Nat.add_succ_comm. apply IH. lia.
Qed.

Lemma get_prop_array_index (xs : list value) (i : nat) :
  i < List.length xs ->
  get_prop (OArr xs) (index_key i) = nth i xs VUndefined.
Proof.
  intros Hi. simpl. rewrite index_key_not_length.
  now apply (array_lookup_nth xs 0 i).
Qed.

(** ** The loops *)

Lemma all_ok_true_iff {A} (test : A -> eval bool) (xs : list A) :
  all_ok test xs = Some (Ret true) <->
  forall x, In x xs -> test x = Some (Ret true).
Proof.
  induction xs as [|x xs IH]; simpl.
  - split; [intros _ y [] | reflexivity].
  - unfold bind. destruct (test x) as [[[|]|e]|] eqn:E.
    + rewrite IH. split.
      * intros H y [<-|Hy]; auto.
      * intros H y Hy. apply H. now right.
    + split; [discriminate|]. intros H.
      specialize (H x (or_introl eq_refl)). congruence.
    + split; [discriminate|]. intros H.
      specialize (H x (or_introl eq_refl)). congruence.
    + split; [discriminate|]. intros H.
      specialize (H x (or_introl eq_refl)). congruence.
Qed.

Lemma all_ok_mono {A} (f g : A -> eval bool) (xs : list A) (r : outcome bool) :
  (forall x s, In x xs -> f x = Some s -> g x = Some s) ->
  all_ok f xs = Some r -> all_ok g xs = Some r.
Proof.
  induction xs as [|x xs IH]; simpl; intros Hfg H; [exact H|].
  unfold bind in *. destruct (f x) as [s|] eqn:E; [|discriminate].
  rewrite (Hfg x s (or_introl eq_refl) E).
  destruct s as [[|]|e]; auto.
Qed.

Lemma all_ok_total {A} (f : A -> eval bool) (xs : list A) :
  (forall x, In x xs -> exists s, f x = Some s) ->
  exists r, all_ok f xs = Some r.
Proof.
  induction xs as [|x xs IH]; simpl; intros H.
  - now exists (Ret true).
  - destruct (H x (or_introl eq_refl)) as [s E]. unfold bind. rewrite E.
    destruct s as [[|]|e].
    + apply IH. intros y Hy. apply H. now right.
    + now exists (Ret false).
    + now exists (Throw e).
Qed.

(** ** Fuel *)

Lemma deepEquals_S (n : nat) (h : heap) (objA objB : value) :
  deepEquals (S n) h objA objB =
  if strict_eq objA objB then ret true
  else if strict_eq objA VNull && strict_eq objB VNull then ret true
  else if isArray h objA && isArray h objB then
    if negb (array_length h objA =? array_length h objB) then ret false
    else all_ok (fun i => deepEquals n h (index h objA i) (index h objB i))
                (seq 0 (array_length h objA))
  else if type_tag_eqb (typeof h objA) TObject
          && type_tag_eqb (typeof h objB) TObject then
    keysA <- lift (object_keys h objA) ;;
    keysB <- lift (object_keys h objB) ;;
    if negb (List.length keysA =? List.length keysB) then ret false
    else all_ok (fun key => va <- lift (get h objA key) ;;
                            vb <- lift (get h objB key) ;;
                            deepEquals n h va vb)
                keysA
  else ret false.
Proof. reflexivity. Qed.

Lemma deepEquals_mono_S (n : nat) (h : heap) :
  forall a b r, deepEquals n h a b = Some r -> deepEquals (S n) h a b = Some r.
Proof.
  induction n as [|n IH]; intros a b r H; [discriminate|].
  rewrite deepEquals_S in H. rewrite deepEquals_S.
  destruct (strict_eq a b); [exact H|].
  destruct (strict_eq a VNull && strict_eq b VNull); [exact H|].
  destruct (isArray h a && isArray h b).
  - destruct (negb (array_length h a =? array_length h b)); [exact H|].
    revert H. apply all_ok_mono. intros i s _. apply IH.
  - destruct (type_tag_eqb (typeof h a) TObject
              && type_tag_eqb (typeof h b) TObject); [|exact H].
    unfold lift, bind in *.
    destruct (object_keys h a) as [ka|e]; [|exact H].
    destruct (object_keys h b) as [kb|e]; [|exact H].
    destruct (negb (List.length ka =? List.length kb)); [exact H|].
    revert H. apply all_ok_mono. intros k s _.
    destruct (get h a k) as [va|e]; [|auto].
    destruct (get h b k) as [vb|e]; [|auto].
    apply IH.
Qed.

Lemma deepEquals_mono (n m : nat) (h : heap) (a b : value) (r : outcome bool) :
  n <= m -> deepEquals n h a b = Some r -> deepEquals m h a b = Some r.
Proof.
  induction 1 as [|m Hle IH]; [auto|].
  intros H. apply deepEquals_mono_S. auto.
Qed.

(** Two runs that both finish agree. *)
Lemma deepEquals_deterministic (n m : nat) (h : heap) (a b : value)
      (r s : outcome bool) :
  deepEquals n h a b = Some r -> deepEquals m h a b = Some s -> r = s.
Proof.
  intros Hn Hm.
  apply (deepEquals_mono n (Nat.max n m)) in Hn; [|lia].
  apply (deepEquals_mono m (Nat.max n m)) in Hm; [|lia].
  congruence.
Qed.

(** Finitely many calls that each return [true] do so under one bound. *)
Lemma returns_uniform {A} (h : heap) (pa pb : A -> value) (xs : list A) :
  (forall x, In x xs -> deepEquals_returns h (pa x) (pb x) true) ->
  exists n, forall x, In x xs -> deepEquals n h (pa x) (pb x) = Some (Ret true).
Proof.
  induction xs as [|x xs IH]; intros H.
  - exists 0. intros y [].
  - destruct IH as [n Hn]; [intros y Hy; apply H; now right|].
    destruct (H x (or_introl eq_refl)) as [m Hm].
    exists (Nat.max n m). intros y [<-|Hy].
    + apply (deepEquals_mono m); [lia | exact Hm].
    + apply (deepEquals_mono n); [lia | auto].
Qed.

(** ** [shallowEquals] *)

(** The loop over the keys of [objA], for two heap objects: it answers [true]
    exactly when every listed key reads identical values in both. *)
Lemma shallow_loop_refs (h : heap) (la lb : loc) (ks : list string) :
  shallow_loop h (VRef la) (VRef lb) ks =
  Ret (forallb (fun k => strict_eq (get_prop (deref h la) k)
                                   (get_prop (deref h lb) k)) ks).
Proof.
  induction ks as [|k ks IH]; simpl; [reflexivity|].
  destruct (strict_eq _ _); simpl; [exact IH | reflexivity].
Qed.

(** Two different plain objects. *)
Lemma shallowEquals_objects (h : heap) (la lb : loc)
      (pa pb : list (string * value)) :
  la <> lb -> deref h la = OObj pa -> deref h lb = OObj pb ->
  shallowEquals h (VRef la) (VRef lb) =
  Ret ((List.length pa =? List.length pb)
       && forallb (fun k => strict_eq (assoc pa k) (assoc pb k)) (map fst pa)).
Proof.
  intros Hne Ha Hb. unfold shallowEquals.
  rewrite (strict_eq_refs _ _ Hne). simpl. rewrite Ha, Hb. simpl.
  rewrite !length_map.
  destruct (List.length pa =? List.length pb); simpl; [|reflexivity].
  rewrite shallow_loop_refs, Ha, Hb. reflexivity.
Qed.

(** X3: Two different dense arrays (an element at every index, no other
    property of their own) go through the same loop as objects do, over the
    numerals of their indices: they are shallow-equal exactly when they have
    the same length and identical elements at every index. *)
Lemma shallowEquals_arrays (h : heap) (la lb : loc) (xs ys : list value) :
  la <> lb -> deref h la = OArr xs -> deref h lb = OArr ys ->
  shallowEquals h (VRef la) (VRef lb) =
  Ret ((List.length xs =? List.length ys)
       && forallb (fun i => strict_eq (nth i xs VUndefined)
                                      (nth i ys VUndefined))
                  (seq 0 (List.length xs))).
Proof.
  intros Hne Ha Hb. unfold shallowEquals.
  rewrite (strict_eq_refs _ _ Hne). simpl. rewrite Ha, Hb. simpl.
  unfold index_keys. rewrite !length_map, !length_seq.
  destruct (List.length xs =? List.length ys) eqn:El; simpl; [|reflexivity].
  apply Nat.eqb_eq in El.
  rewrite shallow_loop_refs, Ha, Hb. f_equal.
  generalize (seq 0 (List.length xs)) (fun i => proj1 (in_seq (List.length xs) 0 i)).
  intros l Hl. induction l as [|i l IH]; [reflexivity|].
  cbn [map forallb].
  assert (Hi : i < List.length xs) by (specialize (Hl i (or_introl eq_refl)); lia).
  rewrite (get_prop_array_index xs i Hi).
  rewrite (get_prop_array_index ys i) by lia.
  f_equal. apply IH. intros j Hj. apply Hl. now right.
Qed.

Lemma shallowEquals_arrays_example :
  shallowEquals [OArr [num 1; num 2]; OArr [num 1; num 2]] (VRef 0) (VRef 1)
  = Ret true /\
  shallowEquals arrays_heap (VRef 0) (VRef 1) = Ret false.
Proof. split; reflexivity. Qed.

(** A value that is not of type ["object"] is shallow-equal to nothing but
    itself, and the comparison returns. *)
Lemma shallowEquals_non_object (h : heap) (a b : value) :
  typeof h a <> TObject \/ typeof h b <> TObject ->
  strict_eq a b = false ->
  shallowEquals h a b = Ret false.
Proof.
  intros H E. unfold shallowEquals. rewrite E.
  destruct (type_tag_eqb (typeof h a) TObject) eqn:Ea;
    destruct (type_tag_eqb (typeof h b) TObject) eqn:Eb; simpl; try reflexivity.
  exfalso. destruct H as [H|H]; apply H.
  - destruct (typeof h a); simpl in Ea; congruence.
  - destruct (typeof h b); simpl in Eb; congruence.
Qed.

(** C4, as stated, fails: [NaN === NaN] is false and [typeof NaN] is
    ["number"], so [shallowEquals(NaN, NaN)] returns [false]. *)
Lemma shallowEquals_NaN_NaN :
  shallowEquals [] (VNumber NaN) (VNumber NaN) = Ret false.
Proof. reflexivity. Qed.

(** C4 (amended): for every value [x] other than [NaN], [shallowEquals(x, x)]
    returns [true]; this includes [null] and [undefined]. *)
Theorem shallowEquals_refl (h : heap) (x : value) :
  x <> VNumber NaN -> shallowEquals h x x = Ret true.
Proof.
  intros H. unfold shallowEquals. now rewrite (strict_eq_refl x H).
Qed.

Lemma shallowEquals_refl_witness :
  (VNull <> VNumber NaN /\ shallowEquals [] VNull VNull = Ret true) /\
  (VUndefined <> VNumber NaN /\
   shallowEquals [] VUndefined VUndefined = Ret true).
Proof.
  split; (split; [discriminate | apply shallowEquals_refl; discriminate]).
Defined.

(** C7 holds for every non-object value except [null], where the code
    fails: [typeof null] is ["object"], so the guard of line 44 lets [null]
    through and [Object.keys(null)] throws. With [{}] at location 0, both
    [shallowEquals(null, {})] and [shallowEquals({}, null)] raise [TypeError]
    instead of returning [false]. For a value whose [typeof] is not
    ["object"], compared with anything not identical to it, the result is
    [false]. *)
Theorem shallowEquals_object_vs_non_object :
  (forall h a b, typeof h a <> TObject \/ typeof h b <> TObject ->
                 strict_eq a b = false -> shallowEquals h a b = Ret false) /\
  shallowEquals [OObj []] VNull (VRef 0) = Throw TypeError /\
  shallowEquals [OObj []] (VRef 0) VNull = Throw TypeError.
Proof.
  split; [exact shallowEquals_non_object | split; reflexivity].
Qed.


Lemma flat_objects_shallow_equal :
  shallowEquals flat_heap (VRef 0) (VRef 1) = Ret true.
Proof. reflexivity. Qed.

Lemma nested_objects_not_shallow_equal :
  shallowEquals nested_heap (VRef 2) (VRef 3) = Ret false.
Proof. reflexivity. Qed.


(** ** [deepEquals] *)

(** The array branch (lines 17-28), for two different arrays. *)
Lemma deepEquals_S_arrays (n : nat) (h : heap) (la lb : loc)
      (xs ys : list value) :
  la <> lb -> deref h la = OArr xs -> deref h lb = OArr ys ->
  deepEquals (S n) h (VRef la) (VRef lb) =
  if negb (List.length xs =? List.length ys) then ret false
  else all_ok (fun i => deepEquals n h (nth i xs VUndefined)
                                       (nth i ys VUndefined))
              (seq 0 (List.length xs)).
Proof.
  intros Hne Ha Hb. rewrite deepEquals_S.
  rewrite (strict_eq_refs _ _ Hne).
  unfold isArray, array_length, index, array_elems.
  rewrite Ha, Hb. reflexivity.
Qed.

(** The object branch (lines 30-42), for two different plain objects. *)
Lemma deepEquals_S_objects (n : nat) (h : heap) (la lb : loc)
      (pa pb : list (string * value)) :
  la <> lb -> deref h la = OObj pa -> deref h lb = OObj pb ->
  deepEquals (S n) h (VRef la) (VRef lb) =
  if negb (List.length pa =? List.length pb) then ret false
  else all_ok (fun k => deepEquals n h (assoc pa k) (assoc pb k))
              (map fst pa).
Proof.
  intros Hne Ha Hb. rewrite deepEquals_S.
  rewrite (strict_eq_refs _ _ Hne).
  unfold isArray, typeof, object_keys, get.
  rewrite Ha, Hb. simpl. rewrite !length_map. reflexivity.
Qed.

(** C9, as stated, fails for an array compared with itself: line 4 answers
    [true] at once, also for [a = [NaN]], whose element is not deep-equal
    to itself. *)
Lemma arrays_claim_fails_on_identical : ~ arrays_claim nan_heap 0 0.
Proof.
  intros H.
  destruct (H [VNumber NaN] [VNumber NaN] eq_refl eq_refl) as [_ Heq].
  destruct (Heq eq_refl) as [Hall _].
  destruct (Hall (ex_intro _ 1 eq_refl) 0 (Nat.lt_0_succ 0)) as [[|n] Hn];
    discriminate Hn.
Qed.

(** C9 (amended): for every pair of arrays that are not identical,
    [deepEquals] returns [false] if the lengths differ, and for equal lengths
    returns [true] if and only if every index-aligned pair of elements is
    deep-equal. In particular [deepEquals([1,2,3], [1,2])] is [false]. *)
Theorem deepEquals_arrays :
  (forall h la lb, la <> lb -> arrays_claim h la lb) /\
  deepEquals 1 arrays_heap (VRef 0) (VRef 1) = Some (Ret false).
Proof.
  split; [|reflexivity].
  intros h la lb Hne xs ys Ha Hb. split.
  - intros Hlen n. rewrite (deepEquals_S_arrays n h la lb xs ys Hne Ha Hb).
    apply Nat.eqb_neq in Hlen. now rewrite Hlen.
  - intros Hlen. split.
    + intros [[|n] Hn]; [discriminate|].
      rewrite (deepEquals_S_arrays n h la lb xs ys Hne Ha Hb) in Hn.
      rewrite Hlen, Nat.eqb_refl in Hn. simpl in Hn.
      rewrite all_ok_true_iff in Hn.
      intros i Hi. exists n. apply Hn. apply in_seq. lia.
    + intros Hall.
      destruct (returns_uniform h (fun i => nth i xs VUndefined)
                                (fun i => nth i ys VUndefined)
                                (seq 0 (List.length xs))) as [n Hn].
      { intros i Hi. apply Hall. apply in_seq in Hi. lia. }
      exists (S n).
      rewrite (deepEquals_S_arrays n h la lb xs ys Hne Ha Hb).
      rewrite Hlen, Nat.eqb_refl. simpl.
      rewrite Hlen in Hn. now apply all_ok_true_iff.
Qed.

Lemma deepEquals_arrays_witness :
  0 <> 1 /\ arrays_claim arrays_heap 0 1.
Proof.
  split; [discriminate|].
  apply (proj1 deepEquals_arrays). discriminate.
Defined.

(** Where a key of [a] is missing from [b] but holds [undefined] in [a],
    [deepEquals({x: undefined}, {y: 1})] is [true], since [b.x] reads
    [undefined] as well and the key counts agree. *)
Lemma objects_claim_fails_on_missing_key : ~ objects_claim missing_key_heap 0 1.
Proof.
  intros H.
  destruct (H [("x", VUndefined)] [("y", num 1)] eq_refl eq_refl) as [_ Heq].
  destruct (Heq eq_refl) as [Hall _].
  destruct (Hall (ex_intro _ 2 eq_refl) "x" (or_introl eq_refl))
    as [[Hin|[]] _].
  discriminate Hin.
Qed.

(** When every key of the first object is a key of the second, the loop of
    lines 35-39 decides what C3 states. *)
Lemma objects_claim_keys_present (h : heap) (la lb : loc)
      (pa pb : list (string * value)) :
  la <> lb -> deref h la = OObj pa -> deref h lb = OObj pb ->
  incl (map fst pa) (map fst pb) -> objects_claim h la lb.
Proof.
  intros Hne Ha Hb Hincl pa' pb' Ha' Hb'.
  rewrite Ha in Ha'. rewrite Hb in Hb'.
  injection Ha' as <-. injection Hb' as <-. split.
  - intros Hlen n. rewrite (deepEquals_S_objects n h la lb pa pb Hne Ha Hb).
    apply Nat.eqb_neq in Hlen. now rewrite Hlen.
  - intros Hlen. split.
    + intros [[|n] Hn]; [discriminate|].
      rewrite (deepEquals_S_objects n h la lb pa pb Hne Ha Hb) in Hn.
      rewrite Hlen, Nat.eqb_refl in Hn. simpl in Hn.
      rewrite all_ok_true_iff in Hn.
      intros k Hk. split; [now apply Hincl|]. exists n. now apply Hn.
    + intros Hall.
      destruct (returns_uniform h (assoc pa) (assoc pb) (map fst pa))
        as [n Hn]; [intros k Hk; now apply Hall|].
      exists (S n).
      rewrite (deepEquals_S_objects n h la lb pa pb Hne Ha Hb).
      rewrite Hlen, Nat.eqb_refl. simpl.
      now apply all_ok_true_iff.
Qed.

(** C3 holds for two different plain objects when every key of [a] is a key
    of [b]: [false] on different key counts, otherwise [true] exactly when
    every key maps to deep-equal values; so
    [deepEquals({a:[1,{b:2}]}, {a:[1,{b:2}]})] is [true], and [false] once
    the nested [b] is changed. It fails where a key of [a] is missing from
    [b]: line 36 reads [objB[key]] without testing that [key] exists, so
    [deepEquals({x: undefined}, {y: 1})] is [true] although [x] is no key of
    the second object, while the same two objects in the other order give
    [false]. *)
Theorem deepEquals_objects_missing_key :
  (forall h la lb pa pb,
      la <> lb -> deref h la = OObj pa -> deref h lb = OObj pb ->
      incl (map fst pa) (map fst pb) -> objects_claim h la lb) /\
  ~ objects_claim missing_key_heap 0 1 /\
  deepEquals 2 missing_key_heap (VRef 0) (VRef 1) = Some (Ret true) /\
  deepEquals 2 missing_key_heap (VRef 1) (VRef 0) = Some (Ret false) /\
  deepEquals 4 deep_heap (VRef 2) (VRef 5) = Some (Ret true) /\
  deepEquals 4 deep_heap (VRef 2) (VRef 8) = Some (Ret false).
Proof.
  split; [exact objects_claim_keys_present|].
  split; [exact objects_claim_fails_on_missing_key|].
  repeat split.
Qed.

Lemma isArray_typeof (h : heap) (v : value) :
  isArray h v = true -> typeof h v = TObject.
Proof.
  destruct v; simpl; try discriminate.
  destruct (deref h l); simpl; congruence.
Qed.

Lemma type_tag_eqb_eq (s t : type_tag) : type_tag_eqb s t = true -> s = t.
Proof. destruct s, t; simpl; congruence. Qed.

(** The last line of [deepEquals]: two values that are not identical, one of
    which is not of type ["object"], are not deep-equal. *)
Lemma deepEquals_non_object (n : nat) (h : heap) (a b : value) :
  typeof h a <> TObject \/ typeof h b <> TObject ->
  strict_eq a b = false ->
  deepEquals (S n) h a b = Some (Ret false).
Proof.
  intros H E. rewrite deepEquals_S, E.
  destruct (strict_eq a VNull && strict_eq b VNull) eqn:En.
  { apply andb_prop in En. destruct En as [Ea Eb].
    apply strict_eq_eq in Ea, Eb. subst. discriminate E. }
  destruct (isArray h a && isArray h b) eqn:Ei.
  { apply andb_prop in Ei. destruct Ei as [Ea Eb].
    apply isArray_typeof in Ea, Eb. tauto. }
  destruct (type_tag_eqb (typeof h a) TObject
            && type_tag_eqb (typeof h b) TObject) eqn:Et; [|reflexivity].
  apply andb_prop in Et. destruct Et as [Ea Eb].
  apply type_tag_eqb_eq in Ea, Eb. tauto.
Qed.

(** C2 holds when one of the two values has a [typeof] other than
    ["object"], and fails on both mismatches it names. [typeof null] is
    ["object"], so [deepEquals(null, {})] reaches [Object.keys(null)] and
    raises [TypeError]; an array and a plain object fall into the branch of
    line 30 and are compared key by key, so [deepEquals([], {})] and
    [deepEquals([1], {0: 1})] are [true]. *)
Theorem deepEquals_type_mismatch :
  (forall n h a b, typeof h a <> TObject \/ typeof h b <> TObject ->
                   strict_eq a b = false ->
                   deepEquals (S n) h a b = Some (Ret false)) /\
  (forall n, deepEquals (S n) [OObj []] VNull (VRef 0) = Some (Throw TypeError)) /\
  (forall n, deepEquals (S n) [OObj []] (VRef 0) VNull = Some (Throw TypeError)) /\
  (forall n, deepEquals (S n) empty_heap (VRef 0) (VRef 1) = Some (Ret true)) /\
  (forall n, deepEquals (S (S n)) mixed_heap (VRef 0) (VRef 1) = Some (Ret true)).
Proof.
  split; [exact deepEquals_non_object | repeat split].
Qed.

(** ** Termination of [deepEquals] *)

Lemma assoc_depth (d : nat) (h : heap) (ps : list (string * value)) (k : string) :
  forallb (depth_le d h) (map snd ps) = true -> depth_le d h (assoc ps k) = true.
Proof.
  induction ps as [|[k' v] ps IH]; simpl; intros H; [now destruct d|].
  apply andb_prop in H. destruct H as [Hv Hps].
  destruct (String.eqb k' k); auto.
Qed.

Lemma array_lookup_depth (d : nat) (h : heap) (xs : list value) (k : string) :
  forallb (depth_le d h) xs = true ->
  forall i, depth_le d h (array_lookup i xs k) = true.
Proof.
  induction xs as [|x xs IH]; simpl; intros H i; [now destruct d|].
  apply andb_prop in H. destruct H as [Hx Hxs].
  destruct (String.eqb (index_key i) k); auto.
Qed.

(** Reading a property yields a component of the object, or a primitive. *)
Lemma get_prop_depth (d : nat) (h : heap) (o : obj) (k : string) :
  forallb (depth_le d h) (children o) = true ->
  depth_le d h (get_prop o k) = true.
Proof.
  destruct o; simpl; intros H.
  - destruct (String.eqb k "length"); [now destruct d|].
    now apply array_lookup_depth.
  - now apply assoc_depth.
  - now destruct d.
Qed.

Lemma index_depth (d : nat) (h : heap) (l : loc) (i : nat) :
  forallb (depth_le d h) (children (deref h l)) = true ->
  depth_le d h (index h (VRef l) i) = true.
Proof.
  unfold index, array_elems. destruct (deref h l); simpl; intros H.
  - destruct (nth_in_or_default i elems VUndefined) as [Hin|Hdef].
    + rewrite forallb_forall in H. auto.
    + rewrite Hdef. now destruct d.
  - destruct i; now destruct d.
  - destruct i; now destruct d.
Qed.

(** A primitive first argument is decided without recursion. *)
Lemma deepEquals_primitive_total (n : nat) (h : heap) (a b : value) :
  (forall l, a <> VRef l) -> exists r, deepEquals (S n) h a b = Some r.
Proof.
  intros Ha. rewrite deepEquals_S.
  destruct (strict_eq a b); [now eexists|].
  destruct (strict_eq a VNull && strict_eq b VNull); [now eexists|].
  destruct a; try (now destruct (Ha l)); simpl;
    try (now eexists).
  destruct (type_tag_eqb (typeof h b) TObject); now eexists.
Qed.

(** Every call on an acyclic first argument finishes: the recursive calls
    are made on an array element or a property value of [objA], one level
    further down, so the depth of [objA] bounds the recursion. *)
Lemma deepEquals_terminates (h : heap) (d : nat) :
  forall a b, depth_le d h a = true ->
              exists r, deepEquals (S d) h a b = Some r.
Proof.
  induction d as [|d IH]; intros a b Hd.
  - apply deepEquals_primitive_total. intros l ->. discriminate Hd.
  - destruct a as [| | | | |la];
      try (apply deepEquals_primitive_total; discriminate).
    simpl in Hd. rewrite deepEquals_S.
    destruct (strict_eq (VRef la) b); [now eexists|].
    destruct (strict_eq (VRef la) VNull && strict_eq b VNull); [now eexists|].
    destruct (isArray h (VRef la) && isArray h b).
    + destruct (negb (array_length h (VRef la) =? array_length h b));
        [now eexists|].
      apply all_ok_total. intros i _. apply IH. now apply index_depth.
    + destruct (type_tag_eqb (typeof h (VRef la)) TObject
                && type_tag_eqb (typeof h b) TObject); [|now eexists].
      unfold lift, bind.
      destruct (object_keys h (VRef la)) as [ka|e]; [|now eexists].
      destruct (object_keys h b) as [kb|e]; [|now eexists].
      destruct (negb (List.length ka =? List.length kb)); [now eexists|].
      apply all_ok_total. intros k _. simpl.
      destruct (get h b k) as [vb|e]; [|now eexists].
      apply IH. now apply get_prop_depth.
Qed.

Lemma all_ok_returns {A} (f : A -> eval bool) (xs : list A) :
  (forall x, In x xs -> exists r, f x = Some (Ret r)) ->
  exists r, all_ok f xs = Some (Ret r).
Proof.
  induction xs as [|x xs IH]; simpl; intros H.
  - now exists true.
  - destruct (H x (or_introl eq_refl)) as [r E]. unfold bind. rewrite E.
    destruct r.
    + apply IH. intros y Hy. apply H. now right.
    + now exists false.
Qed.

Lemma assoc_null_free (d : nat) (h : heap) (ps : list (string * value))
      (k : string) :
  forallb (null_free d h) (map snd ps) = true ->
  null_free d h (assoc ps k) = true.
Proof.
  induction ps as [|[k' v] ps IH]; simpl; intros H; [now destruct d|].
  apply andb_prop in H. destruct H as [Hv Hps].
  destruct (String.eqb k' k); auto.
Qed.

Lemma array_lookup_null_free (d : nat) (h : heap) (xs : list value)
      (k : string) :
  forallb (null_free d h) xs = true ->
  forall i, null_free d h (array_lookup i xs k) = true.
Proof.
  induction xs as [|x xs IH]; simpl; intros H i; [now destruct d|].
  apply andb_prop in H. destruct H as [Hx Hxs].
  destruct (String.eqb (index_key i) k); auto.
Qed.

Lemma get_prop_null_free (d : nat) (h : heap) (o : obj) (k : string) :
  forallb (null_free d h) (children o) = true ->
  null_free d h (get_prop o k) = true.
Proof.
  destruct o; simpl; intros H.
  - destruct (String.eqb k "length"); [now destruct d|].
    now apply array_lookup_null_free.
  - now apply assoc_null_free.
  - now destruct d.
Qed.

Lemma index_null_free (d : nat) (h : heap) (l : loc) (i : nat) :
  forallb (null_free d h) (children (deref h l)) = true ->
  null_free d h (index h (VRef l) i) = true.
Proof.
  unfold index, array_elems. destruct (deref h l); simpl; intros H.
  - destruct (nth_in_or_default i elems VUndefined) as [Hin|Hdef].
    + rewrite forallb_forall in H. auto.
    + rewrite Hdef. now destruct d.
  - destruct i; now destruct d.
  - destruct i; now destruct d.
Qed.

Lemma isArray_ref (h : heap) (v : value) :
  isArray h v = true -> exists l, v = VRef l.
Proof. destruct v; simpl; try discriminate. now exists l. Qed.

(** A primitive other than [null] as first argument: a boolean at once. *)
Lemma deepEquals_primitive_returns (n : nat) (h : heap) (a b : value) :
  (forall l, a <> VRef l) -> a <> VNull ->
  exists r, deepEquals (S n) h a b = Some (Ret r).
Proof.
  intros Ha Hn. rewrite deepEquals_S.
  destruct (strict_eq a b); [now eexists|].
  destruct (strict_eq a VNull && strict_eq b VNull); [now eexists|].
  destruct a; try (now destruct (Ha l)); try congruence; simpl; now eexists.
Qed.

(** On acyclic data in which [null] does not occur, [deepEquals] returns a
    boolean. *)
Lemma deepEquals_returns_boolean (h : heap) (d : nat) :
  forall a b, depth_le d h a = true ->
              null_free d h a = true -> null_free d h b = true ->
              exists r, deepEquals (S d) h a b = Some (Ret r).
Proof.
  induction d as [|d IH]; intros a b Hd Ha Hb.
  - apply deepEquals_primitive_returns.
    + intros l ->. discriminate Hd.
    + intros ->. discriminate Ha.
  - destruct a as [| | | | |la];
      try (apply deepEquals_primitive_returns; discriminate);
      try discriminate Ha.
    simpl in Hd, Ha. rewrite deepEquals_S.
    destruct (strict_eq (VRef la) b); [now eexists|].
    destruct (strict_eq (VRef la) VNull && strict_eq b VNull); [now eexists|].
    destruct (isArray h (VRef la) && isArray h b) eqn:Ei.
    + destruct (negb (array_length h (VRef la) =? array_length h b));
        [now eexists|].
      apply andb_prop in Ei. destruct Ei as [_ Eb].
      destruct (isArray_ref h b Eb) as [lb ->]. simpl in Hb.
      apply all_ok_returns. intros i _.
      apply IH; [now apply index_depth | now apply index_null_free
                 | now apply index_null_free].
    + destruct (type_tag_eqb (typeof h (VRef la)) TObject
                && type_tag_eqb (typeof h b) TObject) eqn:Et; [|now eexists].
      apply andb_prop in Et. destruct Et as [_ Eb].
      apply type_tag_eqb_eq in Eb.
      destruct b as [| | | | |lb]; try discriminate Eb; try discriminate Hb.
      simpl in Hb. unfold lift, bind.
      destruct (object_keys h (VRef la)) as [ka|e] eqn:Eka;
        [|simpl in Eka; destruct (deref h la); discriminate Eka].
      destruct (object_keys h (VRef lb)) as [kb|e] eqn:Ekb;
        [|simpl in Ekb; destruct (deref h lb); discriminate Ekb].
      destruct (negb (List.length ka =? List.length kb)); [now eexists|].
      apply all_ok_returns. intros k _. simpl.
      apply IH; [now apply get_prop_depth | now apply get_prop_null_free
                 | now apply get_prop_null_free].
Qed.

(** C10: on an acyclic first argument every call of [deepEquals] finishes,
    within a recursion depth bounded by the depth of the data, and it returns
    a boolean when [null] does not occur in the data. Where the data holds
    [null] the call finishes without a boolean: [null] and [{}] are acyclic,
    and [deepEquals(null, {})] raises the [TypeError] of
    [Object.keys(null)]. *)
Theorem deepEquals_acyclic_terminates_null_throws :
  (forall h d a b, depth_le d h a = true ->
                   exists r, deepEquals (S d) h a b = Some r) /\
  (forall h d a b, depth_le d h a = true ->
                   null_free d h a = true -> null_free d h b = true ->
                   exists r, deepEquals (S d) h a b = Some (Ret r)) /\
  acyclic [OObj []] VNull /\ acyclic [OObj []] (VRef 0) /\
  deepEquals_throws [OObj []] VNull (VRef 0) TypeError /\
  (forall r, ~ deepEquals_returns [OObj []] VNull (VRef 0) r).
Proof.
  split; [exact deepEquals_terminates|].
  split; [exact deepEquals_returns_boolean|].
  repeat split.
  - now exists 0.
  - now exists 1.
  - now exists 1.
  - intros r [[|n] H]; discriminate H.
Qed.

(** ** The hooks *)

Lemma invocations_log_call (id : nat) (w : world) :
  invocations id (log_call id w) = S (invocations id w).
Proof.
  unfold invocations, log_call. simpl.
  destruct (Nat.eq_dec id id); [reflexivity | congruence].
Qed.

(** [useMemo] calls its factory on every call: neither [deps] nor [equals]
    is consulted, and nothing is stored between calls. *)
Lemma useMemo_invokes_factory (N : natives) (l : loc) (id : nat)
      (deps : list value) (equals : comparator) (n : nat) (w : world) :
  deref (w_heap w) l = OFun (Native id) ->
  useMemo N (VRef l) deps equals (S n) w = Some (N id [] (log_call id w)).
Proof. intros H. unfold useMemo. simpl. now rewrite H. Qed.

Lemma useMemo_ignores_deps (N : natives) (factory : value)
      (deps deps' : list value) (equals equals' : comparator)
      (n : nat) (w : world) :
  useMemo N factory deps equals n w = useMemo N factory deps' equals' n w.
Proof. reflexivity. Qed.

(** C1 fails: [useMemo] is the unfinished body [return factory();]. With a
    factory that counts its calls, [useMemo(factory, [1,2])] followed by
    [useMemo(factory, [1,2])] invokes the factory twice, and the second call
    returns the new value 2 instead of the stored value 1; a third call with
    [[1,3]] invokes it once more. *)
Theorem useMemo_recomputes_on_equal_deps :
  let w1 := log_call 0 memo_world in
  let w2 := log_call 0 w1 in
  let w3 := log_call 0 w2 in
  useMemo_default counting (VRef 0) [num 1; num 2] 1 memo_world
    = Some (Ret (num 1), w1) /\
  useMemo_default counting (VRef 0) [num 1; num 2] 1 w1
    = Some (Ret (num 2), w2) /\
  invocations 0 w2 = 2 /\
  useMemo_default counting (VRef 0) [num 1; num 3] 1 w2
    = Some (Ret (num 3), w3) /\
  invocations 0 w3 = 3.
Proof. repeat split. Qed.

(** C5 fails in its first half, for the same reason: [useDeepMemo] hands
    [deepEquals] to [useMemo], which does not use it. The two dependency
    lists hold different objects [{a: 1}] that [deepEquals] finds equal, and
    the factory is invoked again all the same; the default [useMemo]
    re-invokes it too. *)
Theorem useDeepMemo_recomputes_on_deep_equal_deps :
  let w1 := log_call 0 memo_world in
  let w2 := log_call 0 w1 in
  deepEquals 2 (w_heap memo_world) (VRef 1) (VRef 2) = Some (Ret true) /\
  useDeepMemo counting (VRef 0) [VRef 1] 1 memo_world
    = Some (Ret (num 1), w1) /\
  useDeepMemo counting (VRef 0) [VRef 2] 1 w1 = Some (Ret (num 2), w2) /\
  invocations 0 w2 = 2 /\
  useMemo_default counting (VRef 0) [VRef 1] 1 memo_world
    = Some (Ret (num 1), w1) /\
  useMemo_default counting (VRef 0) [VRef 2] 1 w1 = Some (Ret (num 2), w2).
Proof. repeat split. Qed.

Lemma deref_alloc (o : obj) (w : world) :
  deref (w_heap (snd (alloc o w))) (List.length (w_heap w)) = o.
Proof. unfold deref, alloc. simpl. apply nth_middle. Qed.

(** Every call of [useCallback] evaluates the arrow function anew, so two
    successive calls never return the same function. *)
Lemma useCallback_fresh (factory : value) (deps deps' : list value) (w : world) :
  strict_eq (fst (useCallback factory deps w))
            (fst (useCallback factory deps' (snd (useCallback factory deps w))))
  = false.
Proof.
  unfold useCallback, alloc. simpl. apply Nat.eqb_neq.
  rewrite length_app. simpl. lia.
Qed.

(** The function [useCallback] returns forwards its arguments to [factory]
    and returns what [factory] returns. *)
Lemma useCallback_forwards (N : natives) (factory : value) (deps args : list value)
      (w : world) (r : outcome value * world) :
  call_result N (fst (useCallback factory deps w)) args
              (snd (useCallback factory deps w)) r <->
  call_result N factory args (snd (useCallback factory deps w)) r.
Proof.
  unfold useCallback.
  assert (E : forall n, call N (S n) (fst (alloc (OFun (Forward factory)) w)) args
                             (snd (alloc (OFun (Forward factory)) w))
                        = call N n factory args
                               (snd (alloc (OFun (Forward factory)) w))).
  { intros n. change (fst (alloc (OFun (Forward factory)) w))
      with (VRef (List.length (w_heap w))).
    cbn [call]. now rewrite deref_alloc. }
  split.
  - intros [[|n] H]; [discriminate|]. exists n. now rewrite <- E.
  - intros [n H]. exists (S n). now rewrite E.
Qed.

(** C6 fails in its first half: [useCallback] does not go through [useMemo].
    Two calls with the same function and the same dependency list return two
    different function objects, here at locations 3 and 4, as do any two
    successive calls. The second half holds: the returned function forwards
    its arguments to the function it was made from and returns that
    function's result. *)
Theorem useCallback_returns_new_function :
  (let r1 := useCallback (VRef 0) [num 1] memo_world in
   let r2 := useCallback (VRef 0) [num 1] (snd r1) in
   fst r1 = VRef 3 /\ fst r2 = VRef 4 /\ strict_eq (fst r1) (fst r2) = false) /\
  (forall factory deps deps' w,
      strict_eq (fst (useCallback factory deps w))
                (fst (useCallback factory deps'
                                  (snd (useCallback factory deps w)))) = false) /\
  (forall N factory deps args w r,
      call_result N (fst (useCallback factory deps w)) args
                  (snd (useCallback factory deps w)) r <->
      call_result N factory args (snd (useCallback factory deps w)) r).
Proof.
  split; [repeat split|].
  split; [exact useCallback_fresh | exact useCallback_forwards].
Qed.

(** ** Further properties of the comparisons *)

#[local] Arguments deepEquals : simpl never.

Lemma deepEquals_identical (n : nat) (h : heap) (a b : value) :
  strict_eq a b = true -> deepEquals (S n) h a b = Some (Ret true).
Proof. intros E. rewrite deepEquals_S. now rewrite E. Qed.

Lemma strict_eq_sym (a b : value) : strict_eq a b = strict_eq b a.
Proof.
  destruct a, b; simpl; try reflexivity.
  - now destruct b, b0.
  - destruct n, n0; simpl; try reflexivity. apply Z.eqb_sym.
  - apply String.eqb_sym.
  - apply Nat.eqb_sym.
Qed.

Lemma shallow_implies_deep (h : heap) (a b : value) :
  shallowEquals h a b = Ret true -> deepEquals 2 h a b = Some (Ret true).
Proof.
  intros H. unfold shallowEquals in H. destruct (strict_eq a b) eqn:E.
  { now apply deepEquals_identical. }
  destruct (type_tag_eqb (typeof h a) TObject) eqn:Ta; [|discriminate].
  destruct (type_tag_eqb (typeof h b) TObject) eqn:Tb; [|discriminate].
  simpl in H.
  destruct (object_keys h a) as [ka|e] eqn:Ka; [|discriminate].
  destruct (object_keys h b) as [kb|e] eqn:Kb; [|discriminate].
  destruct (List.length ka =? List.length kb) eqn:El; [|discriminate].
  simpl in H.
  destruct a as [| | | | |la]; try discriminate.
  destruct b as [| | | | |lb]; try discriminate.
  rewrite shallow_loop_refs in H.
  injection H as Hall. rewrite forallb_forall in Hall.
  rewrite deepEquals_S, E. simpl.
  simpl in Ka, Kb, Ta, Tb.
  destruct (deref h la) as [xs|pa|ca] eqn:Da; try discriminate Ta;
    destruct (deref h lb) as [ys|pb|cb] eqn:Db; try discriminate Tb;
    injection Ka as <-; injection Kb as <-; simpl.
  - (* two arrays *)
    unfold index_keys in El. rewrite !length_map, !length_seq in El.
    unfold array_length, index, array_elems. rewrite Da, Db, El. simpl.
    apply Nat.eqb_eq in El.
    apply all_ok_true_iff. intros i Hi. apply in_seq in Hi.
    apply deepEquals_identical.
    rewrite <- (get_prop_array_index xs i) by lia.
    rewrite <- (get_prop_array_index ys i) by lia.
    apply Hall. unfold index_keys. apply in_map, in_seq. lia.
  - (* an array and a plain object *)
    rewrite El. simpl. apply all_ok_true_iff. intros k Hk.
    apply deepEquals_identical. now apply Hall.
  - rewrite El. simpl. apply all_ok_true_iff. intros k Hk.
    apply deepEquals_identical. now apply Hall.
  - rewrite El. simpl. apply all_ok_true_iff. intros k Hk.
    apply deepEquals_identical. now apply Hall.
Qed.

(** X1: Values that [shallowEquals] finds equal, unless both are arrays, are
    deep-equal: the two functions then run the same loop over the keys of
    the first value, and identical values are deep-equal. *)
Theorem shallowEquals_implies_deepEquals (h : heap) (a b : value) :
  isArray h a && isArray h b = false ->
  shallowEquals h a b = Ret true -> deepEquals 2 h a b = Some (Ret true).
Proof. intros _. apply shallow_implies_deep. Qed.

Lemma shallowEquals_implies_deepEquals_witness :
  isArray flat_heap (VRef 0) && isArray flat_heap (VRef 1) = false /\
  shallowEquals flat_heap (VRef 0) (VRef 1) = Ret true /\
  deepEquals 2 flat_heap (VRef 0) (VRef 1) = Some (Ret true).
Proof.
  split; [reflexivity|]. split; [reflexivity|].
  apply shallowEquals_implies_deepEquals; reflexivity.
Defined.

(** X2: [shallowEquals] throws in one situation only: one argument is [null]
    and the other is an array or a plain object. In every other case it
    returns a boolean. *)
Theorem shallowEquals_throws_iff (h : heap) (a b : value) (e : exn) :
  shallowEquals h a b = Throw e <->
  (a = VNull /\ b <> VNull /\ typeof h b = TObject) \/
  (b = VNull /\ a <> VNull /\ typeof h a = TObject).
Proof.
  destruct e. split.
  - unfold shallowEquals. destruct (strict_eq a b) eqn:E; [discriminate|].
    destruct (type_tag_eqb (typeof h a) TObject) eqn:Ta; [|discriminate].
    destruct (type_tag_eqb (typeof h b) TObject) eqn:Tb; [|discriminate].
    apply type_tag_eqb_eq in Ta, Tb. simpl.
    destruct a as [| | | | |la]; try discriminate Ta.
    + intros _. left. repeat split; [|exact Tb]. intros ->. discriminate E.
    + destruct b as [| | | | |lb]; try discriminate Tb.
      * intros _. right. repeat split; [discriminate | exact Ta].
      * simpl. destruct (deref h la), (deref h lb);
          try (destruct (negb _); [discriminate|]);
          rewrite ?shallow_loop_refs; discriminate.
  - intros [(-> & Hb & Tb)|(-> & Ha & Ta)].
    + destruct b as [| | | | |lb]; try discriminate Tb; try congruence.
      unfold shallowEquals. simpl. simpl in Tb.
      now destruct (deref h lb).
    + destruct a as [| | | | |la]; try discriminate Ta; try congruence.
      unfold shallowEquals. simpl. simpl in Ta.
      now destruct (deref h la).
Qed.

(** X6: Every value other than [NaN] is deep-equal to itself, and the answer
    comes without looking inside: it is given for cyclic data too. *)
Theorem deepEquals_refl (h : heap) (x : value) (n : nat) :
  x <> VNumber NaN -> deepEquals (S n) h x x = Some (Ret true).
Proof.
  intros H. apply deepEquals_identical. now apply strict_eq_refl.
Qed.

Lemma deepEquals_refl_witness :
  VRef 0 <> VNumber NaN /\
  deepEquals 1 cyclic_heap (VRef 0) (VRef 0) = Some (Ret true).
Proof.
  split; [discriminate|]. apply deepEquals_refl. discriminate.
Defined.

(** X7: Two different arrays that each contain themselves are never decided:
    every bound on the recursion is exhausted. *)
Theorem deepEquals_cyclic_diverges (h : heap) (la lb : loc) :
  la <> lb -> deref h la = OArr [VRef la] -> deref h lb = OArr [VRef lb] ->
  forall fuel, deepEquals fuel h (VRef la) (VRef lb) = None.
Proof.
  intros Hne Ha Hb fuel. induction fuel as [|n IH]; [reflexivity|].
  rewrite (deepEquals_S_arrays n h la lb _ _ Hne Ha Hb).
  simpl. now rewrite IH.
Qed.

Lemma deepEquals_cyclic_diverges_witness :
  deepEquals 1000 cyclic_heap (VRef 0) (VRef 1) = None.
Proof.
  apply (deepEquals_cyclic_diverges cyclic_heap 0 1);
    [discriminate | reflexivity | reflexivity].
Defined.

(** *** Key order and symmetry *)

Lemma assoc_In (ps : list (string * value)) (k : string) (v : value) :
  NoDup (map fst ps) -> In (k, v) ps -> assoc ps k = v.
Proof.
  induction ps as [|[k' v'] ps IH]; simpl; intros Hnd H; [easy|].
  destruct H as [H|H].
  - injection H as -> ->. now rewrite String.eqb_refl.
  - inversion Hnd as [|? ? Hnotin Hnd']; subst.
    destruct (String.eqb k' k) eqn:E; [|auto].
    apply String.eqb_eq in E. subst k'.
    exfalso. apply Hnotin. now apply (in_map fst) in H.
Qed.

Lemma assoc_defined_In (ps : list (string * value)) (k : string) :
  assoc ps k <> VUndefined -> In k (map fst ps).
Proof.
  induction ps as [|[k' v'] ps IH]; simpl; [congruence|].
  destruct (String.eqb k' k) eqn:E; [|auto].
  apply String.eqb_eq in E. auto.
Qed.

Lemma defined_value_true (v : value) :
  defined_value v = true <-> v <> VUndefined.
Proof. destruct v; simpl; split; congruence. Qed.

(** X5: The order in which two objects list their keys does not matter: if one
    object has the properties of the other in another order, with distinct
    keys and no [NaN] among the values, [shallowEquals] and [deepEquals] find
    them equal. *)
Theorem equals_ignore_key_order (h : heap) (la lb : loc)
        (pa pb : list (string * value)) :
  la <> lb -> deref h la = OObj pa -> deref h lb = OObj pb ->
  Permutation pa pb -> NoDup (map fst pa) ->
  (forall k v, In (k, v) pa -> strict_eq v v = true) ->
  shallowEquals h (VRef la) (VRef lb) = Ret true /\
  deepEquals 2 h (VRef la) (VRef lb) = Some (Ret true).
Proof.
  intros Hne Ha Hb Hperm Hnd Hval.
  assert (Hs : shallowEquals h (VRef la) (VRef lb) = Ret true).
  { rewrite (shallowEquals_objects h la lb pa pb Hne Ha Hb).
    rewrite (Permutation_length Hperm), Nat.eqb_refl. simpl. f_equal.
    apply forallb_forall. intros k Hk.
    apply in_map_iff in Hk. destruct Hk as [[k' v] [Hfst Hin]].
    simpl in Hfst. subst k'.
    rewrite (assoc_In pa k v Hnd Hin).
    rewrite (assoc_In pb k v).
    - now apply (Hval k v).
    - apply (Permutation_NoDup (Permutation_map fst Hperm) Hnd).
    - now apply (Permutation_in _ Hperm). }
  split; [exact Hs | now apply shallow_implies_deep].
Qed.

Lemma equals_ignore_key_order_witness :
  shallowEquals [OObj [("x", num 1); ("y", num 2)];
                 OObj [("y", num 2); ("x", num 1)]] (VRef 0) (VRef 1)
    = Ret true /\
  deepEquals 2 [OObj [("x", num 1); ("y", num 2)];
                OObj [("y", num 2); ("x", num 1)]] (VRef 0) (VRef 1)
    = Some (Ret true).
Proof.
  apply (equals_ignore_key_order _ 0 1 [("x", num 1); ("y", num 2)]
                                 [("y", num 2); ("x", num 1)]);
    [discriminate | reflexivity | reflexivity | apply perm_swap | |].
  - repeat constructor; simpl; intuition discriminate.
  - intros k v [H|[H|[]]]; injection H as <- <-; reflexivity.
Defined.

(** X4: [shallowEquals] is symmetric on two plain objects with distinct
    keys, none of which names a property inherited from [Object.prototype],
    and none of whose properties holds [undefined]. With an [undefined]
    property it is not: [shallowEquals({x: undefined}, {y: 1})] is [true],
    the converse [false]. *)
Theorem shallowEquals_sym_objects :
  (forall h la lb pa pb,
      deref h la = OObj pa -> deref h lb = OObj pb ->
      NoDup (map fst pa) -> NoDup (map fst pb) ->
      own_names pa -> own_names pb ->
      (forall k, In k (map fst pa) -> defined_value (assoc pa k) = true) ->
      (forall k, In k (map fst pb) -> defined_value (assoc pb k) = true) ->
      shallowEquals h (VRef la) (VRef lb) = shallowEquals h (VRef lb) (VRef la)) /\
  shallowEquals missing_key_heap (VRef 0) (VRef 1) = Ret true /\
  shallowEquals missing_key_heap (VRef 1) (VRef 0) = Ret false.
Proof.
  split; [|split; reflexivity].
  assert (Half : forall pa pb,
             NoDup (map fst pa) ->
             (forall k, In k (map fst pa) -> defined_value (assoc pa k) = true) ->
             List.length pa = List.length pb ->
             forallb (fun k => strict_eq (assoc pa k) (assoc pb k)) (map fst pa)
             = true ->
             forallb (fun k => strict_eq (assoc pb k) (assoc pa k)) (map fst pb)
             = true).
  { intros pa pb Hnd Hdef Hlen Hall. rewrite forallb_forall in Hall.
    assert (Hincl : incl (map fst pa) (map fst pb)).
    { intros k Hk. apply assoc_defined_In.
      specialize (Hall k Hk). apply strict_eq_eq in Hall. rewrite <- Hall.
      now apply defined_value_true, Hdef. }
    apply forallb_forall. intros k Hk.
    rewrite strict_eq_sym. apply Hall.
    refine (NoDup_length_incl Hnd _ Hincl k Hk).
    rewrite !length_map. lia. }
  intros h la lb pa pb Ha Hb Hnda Hndb _ _ Hda Hdb.
  destruct (Nat.eq_dec la lb) as [->|Hne]; [reflexivity|].
  rewrite (shallowEquals_objects h la lb pa pb Hne Ha Hb).
  rewrite (shallowEquals_objects h lb la pb pa (not_eq_sym Hne) Hb Ha).
  rewrite (Nat.eqb_sym (List.length pb)). f_equal.
  destruct (List.length pa =? List.length pb) eqn:El; [|reflexivity].
  apply Nat.eqb_eq in El. simpl.
  destruct (forallb _ (map fst pa)) eqn:Fa.
  - symmetry. now apply (Half pa pb).
  - destruct (forallb _ (map fst pb)) eqn:Fb; [|reflexivity].
    rewrite (Half pb pa) in Fa; auto.
Qed.

Lemma shallowEquals_sym_objects_witness :
  shallowEquals flat_heap (VRef 0) (VRef 1)
  = shallowEquals flat_heap (VRef 1) (VRef 0).
Proof.
  assert (Hn : own_names [("a", num 1)]).
  { intros k [<-|[]]. unfold Object_prototype_names. simpl.
    intuition discriminate. }
  apply (proj1 shallowEquals_sym_objects flat_heap 0 1
               [("a", num 1)] [("a", num 1)]);
    try reflexivity; try exact Hn;
    try (repeat constructor; simpl; intuition discriminate);
    intros k [<-|[]]; reflexivity.
Defined.

Lemma object_keys_ref (h : heap) (l : loc) :
  object_keys h (VRef l) = Ret (own_keys (deref h l)).
Proof. simpl. now destruct (deref h l). Qed.

Lemma index_keys_NoDup (n : nat) : NoDup (index_keys n).
Proof.
  unfold index_keys. apply Injective_map_NoDup; [|apply seq_NoDup].
  intros i j. apply index_key_inj.
Qed.

Lemma own_keys_NoDup (o : obj) : tidy_obj o -> NoDup (own_keys o).
Proof.
  destruct o; simpl.
  - intros _. apply index_keys_NoDup.
  - now intros [H _].
  - intros _. constructor.
Qed.

Lemma array_lookup_defined_In (xs : list value) (k : string) :
  forall i, array_lookup i xs k <> VUndefined ->
            In k (map index_key (seq i (List.length xs))).
Proof.
  induction xs as [|x xs IH]; simpl; intros i H; [congruence|].
  destruct (String.eqb (index_key i) k) eqn:E.
  - left. now apply String.eqb_eq.
  - right. now apply IH.
Qed.

(** A key of a tidy object reads a defined value. *)
Lemma own_keys_defined (o : obj) (k : string) :
  tidy_obj o -> In k (own_keys o) -> get_prop o k <> VUndefined.
Proof.
  destruct o as [xs|ps|c]; intros Ht Hk; simpl in Ht, Hk.
  - destruct Ht.
  - destruct Ht as (_ & _ & Hd). now apply defined_value_true, Hd.
  - destruct Hk.
Qed.

(** A defined property of a tidy object is one of its keys. *)
Lemma defined_own_keys (o : obj) (k : string) :
  tidy_obj o -> get_prop o k <> VUndefined -> In k (own_keys o).
Proof.
  destruct o as [xs|ps|c]; simpl; intros Ht H.
  - destruct Ht.
  - now apply assoc_defined_In.
  - congruence.
Qed.

Lemma deepEquals_true_undefined (n : nat) (h : heap) (v : value) :
  deepEquals n h v VUndefined = Some (Ret true) -> v = VUndefined.
Proof.
  destruct n as [|n]; [discriminate|]. intros H.
  destruct (strict_eq v VUndefined) eqn:E; [now apply strict_eq_eq|].
  rewrite (deepEquals_non_object n h v VUndefined) in H;
    [discriminate | right; discriminate | exact E].
Qed.

(** On a tidy heap [deepEquals] is symmetric in its positive answer. *)
Lemma deepEquals_sym_fuel (h : heap) :
  tidy_heap h ->
  forall n a b, deepEquals n h a b = Some (Ret true) ->
                deepEquals n h b a = Some (Ret true).
Proof.
  intros Ht n. induction n as [|n IH]; intros a b H; [discriminate|].
  rewrite deepEquals_S in H. rewrite deepEquals_S.
  rewrite (strict_eq_sym b a).
  destruct (strict_eq a b) eqn:E; [reflexivity|].
  rewrite (andb_comm (strict_eq b VNull)).
  destruct (strict_eq a VNull && strict_eq b VNull); [reflexivity|].
  rewrite (andb_comm (isArray h b)).
  destruct (isArray h a && isArray h b).
  - rewrite (Nat.eqb_sym (array_length h b)).
    destruct (array_length h a =? array_length h b) eqn:El;
      simpl in *; [|discriminate H].
    apply Nat.eqb_eq in El. rewrite <- El.
    rewrite all_ok_true_iff in H. apply all_ok_true_iff.
    intros i Hi. now apply IH, H.
  - rewrite (andb_comm (type_tag_eqb (typeof h b) TObject)).
    destruct (type_tag_eqb (typeof h a) TObject
              && type_tag_eqb (typeof h b) TObject) eqn:Et; [|discriminate H].
    apply andb_prop in Et. destruct Et as [Ta Tb].
    apply type_tag_eqb_eq in Ta, Tb.
    unfold lift, bind in *.
    destruct (object_keys h a) as [ka|e] eqn:Ka; [|discriminate H].
    destruct (object_keys h b) as [kb|e] eqn:Kb; [|discriminate H].
    rewrite (Nat.eqb_sym (List.length kb)).
    destruct (List.length ka =? List.length kb) eqn:El;
      simpl in *; [|discriminate H].
    apply Nat.eqb_eq in El.
    destruct a as [| | | | |la]; try discriminate Ta; try discriminate Ka.
    destruct b as [| | | | |lb]; try discriminate Tb; try discriminate Kb.
    + clear Ta Tb.
      rewrite object_keys_ref in Ka, Kb.
      injection Ka as <-. injection Kb as <-.
      rewrite all_ok_true_iff in H. apply all_ok_true_iff.
      simpl in H. simpl.
      assert (Hincl : incl (own_keys (deref h la)) (own_keys (deref h lb))).
      { intros k Hk. apply (defined_own_keys (deref h lb) k (Ht lb)).
        intros Hu. specialize (H k Hk). rewrite Hu in H.
        apply deepEquals_true_undefined in H.
        now apply (own_keys_defined (deref h la) k (Ht la) Hk). }
      intros k Hk. apply IH, H.
      refine (NoDup_length_incl (own_keys_NoDup _ (Ht la)) _ Hincl k Hk). lia.
Qed.

(** X8: [deepEquals] is symmetric in its positive answer on tidy data: plain
    objects, nested to any depth, with distinct keys none of which names a
    property inherited from [Object.prototype], and without [undefined]
    properties. *)
Theorem deepEquals_sym (h : heap) (a b : value) :
  tidy_heap h ->
  (deepEquals_returns h a b true <-> deepEquals_returns h b a true).
Proof.
  intros Ht. split; intros [n H]; exists n; now apply deepEquals_sym_fuel.
Qed.

Lemma plain_heap_tidy : tidy_heap plain_heap.
Proof.
  assert (Hq : tidy_obj (OObj [("q", num 1)])).
  { repeat split.
    - repeat constructor. intros [].
    - intros k [<-|[]]. unfold Object_prototype_names. simpl.
      intuition discriminate.
    - intros k [<-|[]]. reflexivity. }
  assert (Hp : forall l, tidy_obj (OObj [("p", VRef l)])).
  { intros l. repeat split.
    - repeat constructor. intros [].
    - intros k [<-|[]]. unfold Object_prototype_names. simpl.
      intuition discriminate.
    - intros k [<-|[]]. reflexivity. }
  intros l. do 4 (destruct l as [|l]; [first [exact Hq | apply Hp]|]).
  unfold deref, plain_heap. simpl. destruct l; simpl; repeat split;
    try constructor; intros k [].
Qed.

Lemma deepEquals_sym_witness :
  deepEquals_returns plain_heap (VRef 1) (VRef 3) true <->
  deepEquals_returns plain_heap (VRef 3) (VRef 1) true.
Proof. apply deepEquals_sym. exact plain_heap_tidy. Defined.

(** Without tidiness the symmetry fails: with an [undefined] property, and
    with a key ["length"] against an array. *)
Lemma deepEquals_not_symmetric :
  deepEquals 2 missing_key_heap (VRef 0) (VRef 1) = Some (Ret true) /\
  deepEquals 2 missing_key_heap (VRef 1) (VRef 0) = Some (Ret false) /\
  deepEquals 2 [OObj [("length", num 1)]; OArr [num 5]] (VRef 0) (VRef 1)
    = Some (Ret true) /\
  deepEquals 2 [OObj [("length", num 1)]; OArr [num 5]] (VRef 1) (VRef 0)
    = Some (Ret false).
Proof. repeat split. Qed.

(** ** The example applications *)

Lemma number_add_comm (a b : number) : number_add a b = number_add b a.
Proof. destruct a, b; simpl; try reflexivity. f_equal. lia. Qed.

Lemma number_add_assoc (a b c : number) :
  number_add a (number_add b c) = number_add (number_add a b) c.
Proof. destruct a, b, c; simpl; try reflexivity. f_equal. lia. Qed.

Lemma number_add_0_r (a : number) : number_add a (Num 0) = a.
Proof. destruct a; simpl; [reflexivity|]. f_equal. lia. Qed.

Lemma number_add_0_l (a : number) : number_add (Num 0) a = a.
Proof. now destruct a. Qed.

Lemma fold_likes_acc (news : list NewsItem.t) (acc : number) :
  fold_left (fun sum item => number_add sum (NewsItem.likes item)) news acc
  = number_add acc (totalLikes news).
Proof.
  unfold totalLikes. revert acc.
  induction news as [|item news IH]; cbn [fold_left]; intros acc.
  - now rewrite number_add_0_r.
  - rewrite IH, (IH (number_add (Num 0) _)), number_add_0_l.
    apply eq_sym, number_add_assoc.
Qed.

Lemma totalLikes_cons (item : NewsItem.t) (news : list NewsItem.t) :
  totalLikes (item :: news)
  = number_add (NewsItem.likes item) (totalLikes news).
Proof.
  unfold totalLikes at 1. cbn [fold_left].
  now rewrite fold_likes_acc, number_add_0_l.
Qed.

Lemma totalLikes_app (l1 l2 : list NewsItem.t) :
  totalLikes (l1 ++ l2) = number_add (totalLikes l1) (totalLikes l2).
Proof.
  induction l1 as [|item l1 IH]; cbn [app].
  - change (totalLikes []) with (Num 0). now rewrite number_add_0_l.
  - now rewrite !totalLikes_cons, IH, number_add_assoc.
Qed.

(** X12: Theme: toggling twice restores the theme, and toggling always changes
    it. *)
Theorem toggleTheme_involutive (t : Theme) :
  toggleTheme (toggleTheme t) = t /\ toggleTheme t <> t.
Proof. destruct t; split; cbv; congruence. Qed.

(** X13: A like changes nothing but like counts: the list keeps its length and
    order, and every item its identifier, title, category and content. *)
Theorem likeNews_only_likes (id : number) (news : list NewsItem.t) :
  List.length (likeNews id news) = List.length news /\
  map NewsItem.id (likeNews id news) = map NewsItem.id news /\
  map NewsItem.title (likeNews id news) = map NewsItem.title news /\
  map NewsItem.category (likeNews id news) = map NewsItem.category news /\
  map NewsItem.content (likeNews id news) = map NewsItem.content news.
Proof.
  unfold likeNews. rewrite length_map, !map_map.
  repeat split; apply map_ext; intros item;
    now destruct (number_eqb (NewsItem.id item) id).
Qed.

Lemma likeNews_absent (id : number) (news : list NewsItem.t) :
  (forall item, In item news -> number_eqb (NewsItem.id item) id = false) ->
  likeNews id news = news.
Proof.
  intros H. unfold likeNews. rewrite <- (map_id news) at 2.
  apply map_ext_in. intros item Hin. now rewrite (H item Hin).
Qed.

(** X14: A like for an identifier no item carries leaves the list as it is. *)
Theorem likeNews_absent_id (id : number) (news : list NewsItem.t) :
  (forall item, In item news -> number_eqb (NewsItem.id item) id = false) ->
  likeNews id news = news.
Proof. apply likeNews_absent. Qed.

(** [NaN] is no item's identifier, not even of an item whose [id] is
    [NaN]. *)
Lemma likeNews_NaN (news : list NewsItem.t) : likeNews NaN news = news.
Proof.
  apply likeNews_absent. intros item _.
  now destruct (NewsItem.id item).
Qed.

Lemma likeNews_absent_id_witness :
  likeNews (Num 7) [NewsItem.mk (Num 1) "t" Politics (Num 3) "c"]
  = [NewsItem.mk (Num 1) "t" Politics (Num 3) "c"].
Proof.
  apply likeNews_absent_id. intros item [<-|[]]. reflexivity.
Defined.

Lemma totalLikes_like_count (id : number) (news : list NewsItem.t) :
  totalLikes (likeNews id news)
  = number_add (totalLikes news) (Num (Z.of_nat (count_id id news))).
Proof.
  unfold count_id. induction news as [|item news IH].
  - reflexivity.
  - change (likeNews id (item :: news))
      with ((if number_eqb (NewsItem.id item) id
             then NewsItem.mk (NewsItem.id item) (NewsItem.title item)
                    (NewsItem.category item)
                    (number_add (NewsItem.likes item) (Num 1))
                    (NewsItem.content item)
             else item) :: likeNews id news).
    rewrite !totalLikes_cons, IH. simpl filter.
    destruct (number_eqb (NewsItem.id item) id); simpl NewsItem.likes.
    + destruct (NewsItem.likes item), (totalLikes news);
        simpl; try reflexivity. f_equal. simpl List.length. lia.
    + apply number_add_assoc.
Qed.

Lemma totalLikes_sum (news : list NewsItem.t) :
  (forall item, In item news ->
                exists z, NewsItem.likes item = Num z /\ (0 <= z)%Z) ->
  totalLikes news = Num (sum_likes news).
Proof.
  induction news as [|item news IH]; intros H; [reflexivity|].
  rewrite totalLikes_cons, IH by (intros i Hi; apply H; now right).
  destruct (H item (or_introl eq_refl)) as [z [E _]].
  cbn [sum_likes fold_right]. fold (sum_likes news). now rewrite E.
Qed.

(** X15: Where the like counts are whole numbers from 0 on and the sums stay
    within 2^53, the total is the sum of the like counts, and a like raises
    it by the number of items carrying the identifier. *)
Theorem totalLikes_likeNews (id : number) (news : list NewsItem.t) :
  safe_likes news (Z.of_nat (count_id id news)) ->
  totalLikes news = Num (sum_likes news) /\
  totalLikes (likeNews id news)
  = Num (sum_likes news + Z.of_nat (count_id id news)).
Proof.
  intros [Hlikes _]. rewrite totalLikes_like_count.
  rewrite (totalLikes_sum news Hlikes). split; reflexivity.
Qed.

Lemma totalLikes_likeNews_witness :
  totalLikes (likeNews (Num 1)
                [NewsItem.mk (Num 1) "t" Politics (Num 3) "c";
                 NewsItem.mk (Num 1) "u" Culture (Num 4) "d"])
  = Num 9.
Proof.
  apply (totalLikes_likeNews (Num 1)
           [NewsItem.mk (Num 1) "t" Politics (Num 3) "c";
            NewsItem.mk (Num 1) "u" Culture (Num 4) "d"]).
  split.
  - intros item [<-|[<-|[]]]; eexists; split; try reflexivity; lia.
  - vm_compute. discriminate.
Defined.

Lemma count_id_absent (id : number) (news : list NewsItem.t) :
  (forall item, In item news -> number_eqb (NewsItem.id item) id = false) ->
  count_id id news = 0.
Proof.
  unfold count_id. induction news as [|item news IH]; simpl; intros H.
  - reflexivity.
  - rewrite (H item (or_introl eq_refl)). apply IH. intros other Hin.
    apply H. now right.
Qed.

Lemma count_id_NoDup (id : number) (news : list NewsItem.t) :
  NoDup (map NewsItem.id news) -> count_id id news <= 1.
Proof.
  induction news as [|item news IH]; intros Hnd.
  - unfold count_id. simpl. lia.
  - simpl in Hnd. inversion Hnd as [|? ? Hnotin Hnd']; subst.
    unfold count_id in *. simpl.
    destruct (number_eqb (NewsItem.id item) id) eqn:E; [|auto].
    apply number_eqb_eq in E. simpl.
    fold (count_id id news). rewrite count_id_absent; [lia|].
    intros other Hin.
    destruct (number_eqb (NewsItem.id other) id) eqn:E'; [|reflexivity].
    apply number_eqb_eq in E'. exfalso. apply Hnotin.
    rewrite E, <- E'. now apply in_map.
Qed.

Lemma count_id_In (id : number) (news : list NewsItem.t) (item : NewsItem.t) :
  In item news -> number_eqb (NewsItem.id item) id = true ->
  1 <= count_id id news.
Proof.
  intros Hin E. unfold count_id.
  assert (H : In item (filter (fun i => number_eqb (NewsItem.id i) id) news))
    by (apply filter_In; auto).
  destruct (filter _ news); [destruct H | simpl; lia].
Qed.

Lemma totalLikes_like_one (item : NewsItem.t) (news : list NewsItem.t) :
  NoDup (map NewsItem.id news) -> In item news ->
  NewsItem.id item <> NaN ->
  totalLikes (likeNews (NewsItem.id item) news)
  = number_add (totalLikes news) (Num 1).
Proof.
  intros Hnd Hin Hid. rewrite totalLikes_like_count.
  assert (E : number_eqb (NewsItem.id item) (NewsItem.id item) = true).
  { destruct (NewsItem.id item); [congruence | apply Z.eqb_refl]. }
  pose proof (count_id_NoDup (NewsItem.id item) news Hnd).
  pose proof (count_id_In (NewsItem.id item) news item Hin E).
  replace (count_id (NewsItem.id item) news) with 1 by lia. reflexivity.
Qed.

(** X16: With distinct identifiers, like counts that are whole numbers from 0
    on and a total below 2^53, a like for an item of the list raises the
    total by exactly one. *)
Theorem totalLikes_likeNews_unique (item : NewsItem.t) (news : list NewsItem.t) :
  NoDup (map NewsItem.id news) -> In item news ->
  NewsItem.id item <> NaN ->
  safe_likes news 1 ->
  totalLikes news = Num (sum_likes news) /\
  totalLikes (likeNews (NewsItem.id item) news) = Num (sum_likes news + 1).
Proof.
  intros Hnd Hin Hid [Hlikes _].
  rewrite (totalLikes_like_one item news Hnd Hin Hid).
  rewrite (totalLikes_sum news Hlikes). split; reflexivity.
Qed.

Lemma totalLikes_likeNews_unique_witness :
  totalLikes (likeNews (Num 1)
                [NewsItem.mk (Num 1) "t" Politics (Num 3) "c";
                 NewsItem.mk (Num 2) "u" Culture (Num 4) "d"])
  = Num 8.
Proof.
  apply (totalLikes_likeNews_unique
           (NewsItem.mk (Num 1) "t" Politics (Num 3) "c")
           [NewsItem.mk (Num 1) "t" Politics (Num 3) "c";
            NewsItem.mk (Num 2) "u" Culture (Num 4) "d"]).
  - repeat constructor; simpl; intuition discriminate.
  - now left.
  - discriminate.
  - split.
    + intros item [<-|[<-|[]]]; eexists; split; try reflexivity; lia.
    + vm_compute. discriminate.
Defined.

(** X17: A like never moves an item into or out of the filtered view: filtering
    after the like shows the filtered items with the like applied. *)
Theorem filteredNews_likeNews (id : number) (news : list NewsItem.t)
        (category : option NewsCategory) :
  filteredNews (likeNews id news) category
  = likeNews id (filteredNews news category).
Proof.
  destruct category as [c|]; [|reflexivity]. unfold filteredNews, likeNews.
  induction news as [|item news IH]; [reflexivity|].
  cbn [map filter]. rewrite IH.
  destruct (number_eqb (NewsItem.id item) id) eqn:E; cbn [NewsItem.category];
    destruct (NewsCategory_eqb (NewsItem.category item) c);
    cbn [map]; now rewrite ?E.
Qed.

(** X18: Likes commute: the order of two likes does not matter. *)
Theorem likeNews_comm (a b : number) (news : list NewsItem.t) :
  likeNews a (likeNews b news) = likeNews b (likeNews a news).
Proof.
  unfold likeNews. rewrite !map_map. apply map_ext. intros item.
  destruct (number_eqb (NewsItem.id item) a) eqn:Ea,
           (number_eqb (NewsItem.id item) b) eqn:Eb;
    cbn [NewsItem.id]; rewrite ?Ea, ?Eb; reflexivity.
Qed.

Lemma addNews_appends (newNews : NewNews.t) (now : Z)
        (prev : list NewsItem.t) :
  List.length (addNews newNews now prev) = S (List.length prev) /\
  firstn (List.length prev) (addNews newNews now prev) = prev /\
  totalLikes (addNews newNews now prev) = totalLikes prev.
Proof.
  unfold addNews. repeat split.
  - rewrite length_app. simpl. lia.
  - rewrite firstn_app, Nat.sub_diag, firstn_all. simpl. apply app_nil_r.
  - rewrite totalLikes_app. rewrite totalLikes_cons.
    change (totalLikes []) with (Num 0). cbn [NewsItem.likes].
    now rewrite !number_add_0_r.
Qed.

(** X19: Adding a news item appends one item without likes: the list grows by
    one after all former items, and the total of likes stays the same. *)
Theorem addNews_totalLikes (newNews : NewNews.t) (now : Z)
        (prev : list NewsItem.t) :
  List.length (addNews newNews now prev) = S (List.length prev) /\
  firstn (List.length prev) (addNews newNews now prev) = prev /\
  totalLikes (addNews newNews now prev) = totalLikes prev.
Proof. apply addNews_appends. Qed.

(** X20: The added item shows at the end of the view of its own category and of
    the unfiltered view, and in no other category's view. *)
Theorem addNews_filteredNews (newNews : NewNews.t) (now : Z)
        (prev : list NewsItem.t) (c : NewsCategory) :
  filteredNews (addNews newNews now prev) None = addNews newNews now prev /\
  filteredNews (addNews newNews now prev) (Some c)
  = if NewsCategory_eqb (NewNews.category newNews) c
    then addNews newNews now (filteredNews prev (Some c))
    else filteredNews prev (Some c).
Proof.
  split; [reflexivity|]. unfold filteredNews, addNews.
  rewrite filter_app. cbn [filter NewsItem.category].
  destruct (NewsCategory_eqb (NewNews.category newNews) c);
    [reflexivity | apply app_nil_r].
Qed.

Lemma count_id_app (id : number) (l1 l2 : list NewsItem.t) :
  count_id id (l1 ++ l2) = count_id id l1 + count_id id l2.
Proof. unfold count_id. now rewrite filter_app, length_app. Qed.

(** X21: Identifiers come from the clock, so two items added at the same
    reading share one: the number of items with that identifier grows by 2,
    and a like for it then counts for all of them (like counts being whole
    numbers from 0 on, with sums within 2^53). *)
Theorem addNews_same_time (a b : NewNews.t) (now : Z) (prev : list NewsItem.t) :
  count_id (Num now) (addNews b now (addNews a now prev))
  = 2 + count_id (Num now) prev /\
  (safe_likes prev (2 + Z.of_nat (count_id (Num now) prev)) ->
   totalLikes prev = Num (sum_likes prev) /\
   totalLikes (likeNews (Num now) (addNews b now (addNews a now prev)))
   = Num (sum_likes prev + (2 + Z.of_nat (count_id (Num now) prev)))).
Proof.
  assert (E : count_id (Num now) (addNews b now (addNews a now prev))
              = 2 + count_id (Num now) prev).
  { unfold addNews. rewrite !count_id_app. unfold count_id at 2 3.
    cbn [filter NewsItem.id number_eqb]. rewrite Z.eqb_refl. simpl. lia. }
  split; [exact E|]. intros [Hlikes _].
  rewrite totalLikes_like_count, E.
  destruct (addNews_appends b now (addNews a now prev)) as (_ & _ & ->).
  destruct (addNews_appends a now prev) as (_ & _ & ->).
  rewrite (totalLikes_sum prev Hlikes). split; [reflexivity|].
  cbn [number_add]. do 2 f_equal. lia.
Qed.

(** X22: When the clock reading is new to the list, the identifiers stay
    distinct. *)
Theorem addNews_NoDup (newNews : NewNews.t) (now : Z) (prev : list NewsItem.t) :
  NoDup (map NewsItem.id prev) -> ~ In (Num now) (map NewsItem.id prev) ->
  NoDup (map NewsItem.id (addNews newNews now prev)).
Proof.
  intros Hnd Hfresh. unfold addNews. rewrite map_app. cbn [map NewsItem.id].
  apply NoDup_app.
  - exact Hnd.
  - repeat constructor. intros [].
  - intros x Hx [<-|[]]. contradiction.
Qed.

Lemma addNews_NoDup_witness :
  NoDup (map NewsItem.id
             (addNews (NewNews.mk "t" "c" Economy) 20
                      [NewsItem.mk (Num 10) "u" Culture (Num 4) "d"])).
Proof.
  apply addNews_NoDup.
  - repeat constructor. intros [].
  - intros [H|[]]. discriminate H.
Defined.

(** *** Notifications *)

Lemma removeNotification_filter (id : number) (prev : list Notification.t) :
  (forall notif, In notif (removeNotification id prev) ->
                 number_eqb (Notification.id notif) id = false) /\
  (forall notif, In notif prev ->
                 number_eqb (Notification.id notif) id = false ->
                 In notif (removeNotification id prev)) /\
  ((forall notif, In notif prev ->
                  number_eqb (Notification.id notif) id = false) ->
   removeNotification id prev = prev).
Proof.
  unfold removeNotification. repeat split.
  - intros notif H. apply filter_In in H. destruct H as [_ H].
    now apply negb_true_iff.
  - intros notif Hin H. apply filter_In. split; [exact Hin|].
    now apply negb_true_iff.
  - intros H. induction prev as [|n prev IH]; [reflexivity|]. simpl.
    rewrite (H n (or_introl eq_refl)). simpl. f_equal.
    apply IH. intros m Hm. apply H. now right.
Qed.

(** X23: After a removal no notification carries the removed identifier, the
    others stay in their order, and removing an identifier that is not there
    changes nothing. *)
Theorem removeNotification_removes (id : number) (prev : list Notification.t) :
  (forall notif, In notif (removeNotification id prev) ->
                 number_eqb (Notification.id notif) id = false) /\
  (forall notif, In notif prev ->
                 number_eqb (Notification.id notif) id = false ->
                 In notif (removeNotification id prev)) /\
  ((forall notif, In notif prev ->
                  number_eqb (Notification.id notif) id = false) ->
   removeNotification id prev = prev).
Proof. apply removeNotification_filter. Qed.

(** X24: Removals are idempotent and commute. *)
Theorem removeNotification_comm (a b : number) (prev : list Notification.t) :
  removeNotification a (removeNotification a prev) = removeNotification a prev /\
  removeNotification a (removeNotification b prev)
  = removeNotification b (removeNotification a prev).
Proof.
  unfold removeNotification. split.
  - induction prev as [|n prev IH]; [reflexivity|]. simpl.
    destruct (negb (number_eqb (Notification.id n) a)) eqn:E; simpl;
      rewrite ?E, IH; reflexivity.
  - induction prev as [|n prev IH]; [reflexivity|]. simpl.
    destruct (negb (number_eqb (Notification.id n) a)) eqn:Ea,
             (negb (number_eqb (Notification.id n) b)) eqn:Eb; simpl;
      rewrite ?Ea, ?Eb, IH; reflexivity.
Qed.

(** X25: Removing the identifier a notification was just given removes it again,
    together with every older notification created at the same clock
    reading; if there is none, the list is back to what it was. *)
Theorem removeNotification_addNotification (message : string) (now : Z)
        (prev : list Notification.t) :
  removeNotification (Num now) (addNotification message now prev)
  = removeNotification (Num now) prev /\
  (~ In (Num now) (map Notification.id prev) ->
   removeNotification (Num now) (addNotification message now prev) = prev).
Proof.
  assert (E : removeNotification (Num now) (addNotification message now prev)
              = removeNotification (Num now) prev).
  { unfold removeNotification, addNotification. rewrite filter_app.
    cbn [filter Notification.id number_eqb]. rewrite Z.eqb_refl. simpl.
    apply app_nil_r. }
  split; [exact E|]. intros Hfresh. rewrite E.
  apply removeNotification_filter. intros notif Hin.
  destruct (number_eqb (Notification.id notif) (Num now)) eqn:E';
    [|reflexivity].
  apply number_eqb_eq in E'. exfalso. apply Hfresh. rewrite <- E'.
  now apply in_map.
Qed.

(** X26: A notification whose identifier is [NaN] cannot be removed, and
    removing [NaN] removes nothing. *)
Theorem removeNotification_NaN (id : number) (prev : list Notification.t) :
  removeNotification NaN prev = prev /\
  (forall notif, In notif prev -> Notification.id notif = NaN ->
                 In notif (removeNotification id prev)).
Proof.
  split.
  - apply removeNotification_filter. intros notif _.
    now destruct (Notification.id notif).
  - intros notif Hin E. apply removeNotification_filter; [exact Hin|].
    now rewrite E.
Qed.

(** *** The generated news *)

Lemma generateNewsData_created (rc : nat -> NewsCategory) (rl : nat -> Z)
      (count : Z) :
  (count < 2 ^ 32)%Z ->
  exists news,
    generateNewsData rc rl count = Created news /\
    List.length news = Z.to_nat count /\
    map NewsItem.id news
    = map (fun index => Num (Z.of_nat index + 1)) (seq 0 (Z.to_nat count)) /\
    map NewsItem.likes news
    = map (fun index => Num (rl index)) (seq 0 (Z.to_nat count)).
Proof.
  intros Hc. unfold generateNewsData, Array_from.
  apply Z.ltb_lt in Hc. rewrite Hc. eexists. split; [reflexivity|].
  rewrite length_map, length_seq, !map_map. repeat split.
Qed.

Lemma numbered_NoDup (n : nat) :
  NoDup (map (fun index => Num (Z.of_nat index + 1)) (seq 0 n)).
Proof.
  apply Injective_map_NoDup; [|apply seq_NoDup].
  intros i j H. injection H as H. lia.
Qed.

(** X27: [generateNewsData(count)] yields [count] items for a [count] below
    2^32, none for a negative one, numbered 1, 2, ..., [count] in this order
    whatever the random source gives, so that the identifiers are distinct;
    from 2^32 on it throws a [RangeError]. *)
Theorem generateNewsData_numbered (rc : nat -> NewsCategory) (rl : nat -> Z)
        (count : Z) :
  ((count < 2 ^ 32)%Z ->
   exists news,
     generateNewsData rc rl count = Created news /\
     List.length news = Z.to_nat count /\
     (forall i, i < Z.to_nat count ->
                nth_error (map NewsItem.id news) i
                = Some (Num (Z.of_nat i + 1))) /\
     NoDup (map NewsItem.id news)) /\
  ((2 ^ 32 <= count)%Z -> generateNewsData rc rl count = RangeError).
Proof.
  split.
  - intros Hc.
    destruct (generateNewsData_created rc rl count Hc)
      as (news & E & Hlen & Hids & _).
    exists news. repeat split; try assumption.
    + intros i Hi. rewrite Hids, nth_error_map, nth_error_seq.
      apply Nat.ltb_lt in Hi. now rewrite Hi.
    + rewrite Hids. apply numbered_NoDup.
  - intros Hc. unfold generateNewsData, Array_from.
    apply Z.ltb_ge in Hc. now rewrite Hc.
Qed.

Lemma sum_likes_bound (news : list NewsItem.t) :
  (forall item, In item news ->
                exists z, NewsItem.likes item = Num z /\ (0 <= z < 100)%Z) ->
  (sum_likes news <= 99 * Z.of_nat (List.length news))%Z.
Proof.
  induction news as [|item news IH]; intros H.
  - simpl. lia.
  - cbn [sum_likes fold_right List.length]. fold (sum_likes news).
    destruct (H item (or_introl eq_refl)) as [z [E Hz]]. rewrite E. simpl.
    assert (sum_likes news <= 99 * Z.of_nat (List.length news))%Z
      by (apply IH; intros i Hi; apply H; now right).
    lia.
Qed.

(** X28: For a [count] below 2^32 and like counts from 0 to 99, as
    [Math.floor(Math.random() * 100)] gives them, the generated list has its
    sums within 2^53, and a like for any of the numbers 1 to [count] raises
    the total of likes by exactly one. *)
Theorem generateNewsData_like (rc : nat -> NewsCategory) (rl : nat -> Z)
        (count k : Z) :
  (1 <= k <= count)%Z -> (count < 2 ^ 32)%Z ->
  (forall index, 0 <= rl index < 100)%Z ->
  exists news,
    generateNewsData rc rl count = Created news /\
    safe_likes news 1 /\
    totalLikes news = Num (sum_likes news) /\
    totalLikes (likeNews (Num k) news) = Num (sum_likes news + 1).
Proof.
  intros Hk Hc Hrl.
  destruct (generateNewsData_created rc rl count Hc)
    as (news & E & Hlen & Hids & Hlikes).
  exists news. split; [exact E|].
  assert (Hrange : forall item, In item news ->
             exists z, NewsItem.likes item = Num z /\ (0 <= z < 100)%Z).
  { intros item Hin. apply (in_map NewsItem.likes) in Hin.
    rewrite Hlikes in Hin. apply in_map_iff in Hin.
    destruct Hin as [i [Hi _]]. exists (rl i). split; [now symmetry|apply Hrl]. }
  assert (Hsafe : safe_likes news 1).
  { split.
    - intros item Hin. destruct (Hrange item Hin) as [z [Ez Hz]].
      exists z. split; [exact Ez | lia].
    - pose proof (sum_likes_bound news Hrange) as Hb. rewrite Hlen in Hb.
      assert (2 ^ 53 = 9007199254740992)%Z by reflexivity.
      assert (2 ^ 32 = 4294967296)%Z by reflexivity. lia. }
  split; [exact Hsafe|].
  assert (Hin : In (Num k) (map NewsItem.id news)).
  { rewrite Hids. apply in_map_iff. exists (Z.to_nat (k - 1)). split.
    - f_equal. lia.
    - apply in_seq. lia. }
  apply in_map_iff in Hin. destruct Hin as [item [Eid Hin]].
  rewrite <- Eid.
  rewrite (totalLikes_like_one item news);
    [| rewrite Hids; apply numbered_NoDup | exact Hin | rewrite Eid; discriminate].
  rewrite (totalLikes_sum news);
    [|intros i Hi; destruct (Hrange i Hi) as [z [Ez Hz]];
      exists z; split; [exact Ez | lia]].
  split; reflexivity.
Qed.

Lemma generateNewsData_like_witness :
  exists news,
    generateNewsData (fun _ => Society) (fun _ => 7%Z) 3 = Created news /\
    safe_likes news 1 /\
    totalLikes news = Num (sum_likes news) /\
    totalLikes (likeNews (Num 2) news) = Num (sum_likes news + 1).
Proof.
  apply generateNewsData_like.
  - lia.
  - reflexivity.
  - intros index. lia.
Defined.

(** *** The sidebar *)

(** X29: Whatever category is current, the sidebar [App] renders has five
    buttons, "all" first, and exactly one of them is drawn selected. *)
Theorem Sidebar_one_selected (value : option NewsCategory) :
  map label (Sidebar sidebar_items value)
  = ["전체"; "정치"; "경제"; "사회"; "문화"] /\
  List.length (filter selected (Sidebar sidebar_items value)) = 1.
Proof. destruct value as [[]|]; split; reflexivity. Qed.

(** ** Allocation and the comparisons *)

Lemma deref_app (h h' : heap) (l : loc) :
  l < List.length h -> deref (h ++ h')%list l = deref h l.
Proof. intros H. unfold deref. now apply app_nth1. Qed.

Lemma closed_ref (h : heap) (l : loc) :
  closed_value h (VRef l) = true -> l < List.length h.
Proof. simpl. apply Nat.ltb_lt. Qed.

Lemma closed_primitive (h : heap) (v : value) :
  (forall l, v <> VRef l) -> closed_value h v = true.
Proof. destruct v; simpl; try reflexivity. intros H. now destruct (H l). Qed.

Lemma assoc_closed (h : heap) (ps : list (string * value)) (k : string) :
  forallb (closed_value h) (map snd ps) = true ->
  closed_value h (assoc ps k) = true.
Proof.
  induction ps as [|[k' v] ps IH]; simpl; intros H; [reflexivity|].
  apply andb_prop in H. destruct H as [Hv Hps].
  destruct (String.eqb k' k); auto.
Qed.

Lemma array_lookup_closed (h : heap) (xs : list value) (k : string) :
  forallb (closed_value h) xs = true ->
  forall i, closed_value h (array_lookup i xs k) = true.
Proof.
  induction xs as [|x xs IH]; simpl; intros H i; [reflexivity|].
  apply andb_prop in H. destruct H as [Hx Hxs].
  destruct (String.eqb (index_key i) k); auto.
Qed.

Lemma get_prop_closed (h : heap) (l : loc) (k : string) :
  closed_heap h -> closed_value h (get_prop (deref h l) k) = true.
Proof.
  intros Hc. specialize (Hc l). destruct (deref h l); simpl in *.
  - destruct (String.eqb k "length"); [reflexivity|].
    now apply array_lookup_closed.
  - now apply assoc_closed.
  - reflexivity.
Qed.

Lemma index_closed (h : heap) (v : value) (i : nat) :
  closed_heap h -> closed_value h (index h v i) = true.
Proof.
  intros Hc. unfold index, array_elems.
  destruct v as [| | | | |l]; try (now destruct i).
  specialize (Hc l). destruct (deref h l); simpl in Hc;
    try (now destruct i).
  destruct (nth_in_or_default i elems VUndefined) as [Hin|Hdef].
  - rewrite forallb_forall in Hc. auto.
  - now rewrite Hdef.
Qed.

Lemma typeof_app (h h' : heap) (v : value) :
  closed_value h v = true -> typeof (h ++ h')%list v = typeof h v.
Proof.
  destruct v; simpl; try reflexivity. intros H.
  apply Nat.ltb_lt in H. now rewrite deref_app.
Qed.

Lemma isArray_app (h h' : heap) (v : value) :
  closed_value h v = true -> isArray (h ++ h')%list v = isArray h v.
Proof.
  destruct v; simpl; try reflexivity. intros H.
  apply Nat.ltb_lt in H. now rewrite deref_app.
Qed.

Lemma object_keys_app (h h' : heap) (v : value) :
  closed_value h v = true -> object_keys (h ++ h')%list v = object_keys h v.
Proof.
  destruct v; simpl; try reflexivity. intros H.
  apply Nat.ltb_lt in H. now rewrite deref_app.
Qed.

Lemma get_app (h h' : heap) (v : value) (k : string) :
  closed_value h v = true -> get (h ++ h')%list v k = get h v k.
Proof.
  destruct v; simpl; try reflexivity. intros H.
  apply Nat.ltb_lt in H. now rewrite deref_app.
Qed.

Lemma array_elems_app (h h' : heap) (v : value) :
  closed_value h v = true -> array_elems (h ++ h')%list v = array_elems h v.
Proof.
  destruct v; simpl; try reflexivity. intros H.
  apply Nat.ltb_lt in H. now rewrite deref_app.
Qed.

Lemma all_ok_ext {A} (f g : A -> eval bool) (xs : list A) :
  (forall x, In x xs -> f x = g x) -> all_ok f xs = all_ok g xs.
Proof.
  induction xs as [|x xs IH]; simpl; intros H; [reflexivity|].
  rewrite (H x (or_introl eq_refl)). unfold bind.
  destruct (g x) as [[[|]|e]|]; try reflexivity.
  apply IH. intros y Hy. apply H. now right.
Qed.

Lemma get_closed (h : heap) (v : value) (k : string) (r : value) :
  closed_heap h -> get h v k = Ret r -> closed_value h r = true.
Proof.
  intros Hc. destruct v; simpl; try discriminate;
    try (intros H; injection H as <-; reflexivity).
  intros H. injection H as <-. now apply get_prop_closed.
Qed.

(** Objects allocated later do not change what [deepEquals] answers for
    values that existed before. *)
Lemma deepEquals_app (h h' : heap) :
  closed_heap h ->
  forall n a b, closed_value h a = true -> closed_value h b = true ->
                deepEquals n (h ++ h')%list a b = deepEquals n h a b.
Proof.
  intros Hc n. induction n as [|n IH]; intros a b Ha Hb; [reflexivity|].
  rewrite !deepEquals_S.
  rewrite !isArray_app, !typeof_app, !object_keys_app by assumption.
  unfold array_length, index. rewrite !array_elems_app by assumption.
  destruct (strict_eq a b); [reflexivity|].
  destruct (strict_eq a VNull && strict_eq b VNull); [reflexivity|].
  destruct (isArray h a && isArray h b).
  - destruct (negb _); [reflexivity|].
    apply all_ok_ext. intros i _. apply IH; now apply index_closed.
  - destruct (type_tag_eqb (typeof h a) TObject
              && type_tag_eqb (typeof h b) TObject); [|reflexivity].
    unfold lift, bind.
    destruct (object_keys h a) as [ka|e]; [|reflexivity].
    destruct (object_keys h b) as [kb|e]; [|reflexivity].
    destruct (negb _); [reflexivity|].
    apply all_ok_ext. intros k _.
    rewrite !get_app by assumption.
    destruct (get h a k) as [va|e] eqn:Ga; [|reflexivity].
    destruct (get h b k) as [vb|e] eqn:Gb; [|reflexivity].
    apply IH; eapply get_closed; eassumption.
Qed.

Lemma shallow_loop_app (h h' : heap) (a b : value) (ks : list string) :
  closed_value h a = true -> closed_value h b = true ->
  shallow_loop (h ++ h')%list a b ks = shallow_loop h a b ks.
Proof.
  intros Ha Hb. induction ks as [|k ks IH]; simpl; [reflexivity|].
  rewrite !get_app by assumption.
  destruct (get h a k); [|reflexivity].
  destruct (get h b k); [|reflexivity].
  now rewrite IH.
Qed.

Lemma shallowEquals_app (h h' : heap) (a b : value) :
  closed_value h a = true -> closed_value h b = true ->
  shallowEquals (h ++ h')%list a b = shallowEquals h a b.
Proof.
  intros Ha Hb. unfold shallowEquals.
  rewrite !typeof_app, !object_keys_app by assumption.
  destruct (strict_eq a b); [reflexivity|].
  destruct (_ || _); [reflexivity|].
  destruct (object_keys h a); [|reflexivity].
  destruct (object_keys h b); [|reflexivity].
  destruct (negb _); [reflexivity|].
  now apply shallow_loop_app.
Qed.

(** X11: [useCallback] only adds an object: every comparison between values that
    existed before the call has the same outcome after it, and the function
    it returns is identical to none of them. *)
Theorem useCallback_preserves_comparisons (factory : value)
        (deps : list value) (w : world) (a b : value) :
  closed_heap (w_heap w) ->
  closed_value (w_heap w) a = true -> closed_value (w_heap w) b = true ->
  shallowEquals (w_heap (snd (useCallback factory deps w))) a b
  = shallowEquals (w_heap w) a b /\
  (forall n, deepEquals n (w_heap (snd (useCallback factory deps w))) a b
             = deepEquals n (w_heap w) a b) /\
  strict_eq (fst (useCallback factory deps w)) a = false.
Proof.
  intros Hc Ha Hb. unfold useCallback, alloc. simpl. repeat split.
  - now apply shallowEquals_app.
  - intros n. now apply deepEquals_app.
  - destruct a; try reflexivity. apply Nat.eqb_neq.
    apply closed_ref in Ha. lia.
Qed.

Lemma memo_world_closed : closed_heap (w_heap memo_world).
Proof. intros l. do 3 (destruct l as [|l]; [reflexivity|]). now destruct l. Qed.

Lemma useCallback_preserves_comparisons_witness :
  shallowEquals (w_heap (snd (useCallback (VRef 0) [] memo_world)))
                (VRef 1) (VRef 2) = Ret true.
Proof.
  rewrite (proj1 (useCallback_preserves_comparisons
                    (VRef 0) [] memo_world (VRef 1) (VRef 2)
                    memo_world_closed eq_refl eq_refl)).
  reflexivity.
Defined.

(** ** Types and array-like objects *)

(** X9: Values that [shallowEquals] or [deepEquals] finds equal have the same
    [typeof]. *)
Theorem equal_values_same_typeof (h : heap) (a b : value) :
  (shallowEquals h a b = Ret true -> typeof h a = typeof h b) /\
  (deepEquals_returns h a b true -> typeof h a = typeof h b).
Proof.
  assert (Hdeep : forall n, deepEquals n h a b = Some (Ret true) ->
                            typeof h a = typeof h b).
  { intros [|n] H; [discriminate|]. rewrite deepEquals_S in H.
    destruct (strict_eq a b) eqn:E.
    { apply strict_eq_eq in E. now subst. }
    destruct (strict_eq a VNull && strict_eq b VNull) eqn:En.
    { apply andb_prop in En. destruct En as [Ea Eb].
      apply strict_eq_eq in Ea, Eb. now subst. }
    destruct (isArray h a && isArray h b) eqn:Ei.
    { apply andb_prop in Ei. destruct Ei as [Ea Eb].
      apply isArray_typeof in Ea, Eb. congruence. }
    destruct (type_tag_eqb (typeof h a) TObject
              && type_tag_eqb (typeof h b) TObject) eqn:Et;
      [|discriminate H].
    apply andb_prop in Et. destruct Et as [Ea Eb].
    apply type_tag_eqb_eq in Ea, Eb. congruence. }
  split.
  - intros H. apply shallow_implies_deep in H. now apply (Hdeep 2).
  - intros [n H]. now apply (Hdeep n).
Qed.





Lemma shallowEquals_arrays_witness :
  shallowEquals arrays_heap (VRef 0) (VRef 1) = Ret false.
Proof.
  rewrite (shallowEquals_arrays arrays_heap 0 1 [num 1; num 2; num 3]
                                [num 1; num 2]);
    [reflexivity | discriminate | reflexivity | reflexivity].
Defined.
